(** * Image search of iris: shallow embedding of
    [src/core/image_search/image_search.py]

    The module locates a pattern inside a screenshot with OpenCV's template
    matching.  The embedding follows the Python text function by function:

    - integers are [Z]; correlation scores (Python and NumPy floats that are
      only ever compared, and the constant [-10000]) are rationals [Q],
      compared with the order of the numbers they denote (no NaN);
    - a NumPy score surface is a list of rows, read and written through
      stdpp's list lookup and insert, with NumPy's index rules written out
      (a negative index counts from the end, anything else out of range
      raises [IndexError]);
    - exceptions are an explicit result type, and the collaborators that the
      module only calls (screen capture, [cv2.matchTemplate], the wall
      clock, [Settings], the logger) are an environment record plus a world
      state threaded through a small state-and-exception monad;
    - the [while] loops take a fuel argument that bounds the number of
      iterations; termination theorems exhibit enough fuel. *)

From Stdlib Require Import ZArith QArith Lia Bool Ascii String Sorted.
From stdpp Require Import base list strings gmap.

Open Scope Z_scope.

(** ** Scores *)

Definition Qltb (a b : Q) : bool := negb (Qle_bool b a).

(** [np.float32(-10000)], the score written by the suppression step. *)
Definition SUPPRESSED : Q := (-10000) # 1.

(** The reserved similarity [0.99]. *)
Definition EXACT_PRECISION : Q := 99 # 100.

(** ** Data model *)

(** [core.helpers.location.Location] *)
Record Location := mkLocation { loc_x : Z; loc_y : Z }.

(** [core.helpers.rectangle.Rectangle] *)
Record Rectangle := mkRectangle {
  rect_x : Z; rect_y : Z; rect_width : Z; rect_height : Z }.

(** A pixel array: rows of pixels, a pixel being its list of channels. *)
Definition ndarray := list (list (list Z)).

(** A PIL image; [np.array] reads its pixels. *)
Inductive PILImage := PIL (pixels : ndarray).

Definition np_array (img : PILImage) : ndarray :=
  match img with PIL a => a end.

(** [core.image_search.pattern.Pattern]: the attributes and accessors that
    the search functions read. *)
Record Pattern := mkPattern {
  similarity : Q;
  get_filename : string;
  get_size : Z * Z;                 (* (width, height) *)
  get_color_image : PILImage;
  get_gray_image : PILImage;
  get_rgb_array : ndarray;
  get_gray_array : ndarray }.

(** [core.screen.screenshot_image.ScreenshotImage], once constructed. *)
Record ScreenshotImage := mkScreenshotImage {
  stack_color_image : PILImage;
  stack_gray_image : PILImage;
  stack_rgb_array : ndarray;
  stack_gray_array : ndarray }.

(** The result array of [cv2.matchTemplate]: [res[y][x]]. *)
Abbreviation Surface := (list (list Q)).

(** [cv2.TM_*] *)
Inductive TemplateMatchMode :=
  | TM_SQDIFF | TM_SQDIFF_NORMED | TM_CCORR | TM_CCORR_NORMED
  | TM_CCOEFF | TM_CCOEFF_NORMED.

Definition FIND_METHOD : TemplateMatchMode := TM_CCOEFF_NORMED.

Definition mode_eqb (a b : TemplateMatchMode) : bool :=
  match a, b with
  | TM_SQDIFF, TM_SQDIFF | TM_SQDIFF_NORMED, TM_SQDIFF_NORMED
  | TM_CCORR, TM_CCORR | TM_CCORR_NORMED, TM_CCORR_NORMED
  | TM_CCOEFF, TM_CCOEFF | TM_CCOEFF_NORMED, TM_CCOEFF_NORMED => true
  | _, _ => false
  end.

(** ** Exceptions and results *)

Inductive exn :=
  | ScreenshotError     (* core.errors.ScreenshotError *)
  | IndexError
  | AttributeError
  | TypeError
  | cv2_error.

Inductive result (A : Type) :=
  | Ok (a : A)
  | Raise (e : exn).
Arguments Ok {A} a.
Arguments Raise {A} e.

Definition exn_eqb (a b : exn) : bool :=
  match a, b with
  | ScreenshotError, ScreenshotError | IndexError, IndexError
  | AttributeError, AttributeError | TypeError, TypeError
  | cv2_error, cv2_error => true
  | _, _ => false
  end.

(** ** The logger *)

Inductive LogRecord :=
  | debug_searching (filename : string)
  | debug_remaining (filename : string) (time_remaining : Z)
  | warning_width (p_width r_width : Z)
  | warning_height (p_height r_height : Z)
  | warning_screenshot_failed.

(** ** Collaborators and world state *)

(** What the module calls but does not define.  [screenshot k region] is the
    outcome of the [k]-th construction [ScreenshotImage(region=region)] of a
    run, [datetime_now k] the [k]-th reading of the clock in microseconds;
    [cv2_matchTemplate haystack needle] is the correlation engine (with
    [FIND_METHOD]); [auto_wait_timeout] is [Settings.auto_wait_timeout] as a
    duration in microseconds. *)
Record Env := mkEnv {
  screenshot : nat -> option Rectangle -> result ScreenshotImage;
  cv2_matchTemplate : ndarray -> ndarray -> result Surface;
  datetime_now : nat -> Z;
  auto_wait_timeout : Z }.

(** The part of the world a run changes: how many captures and clock
    readings were made, which arrays went to the engine, what was logged. *)
Record World := mkWorld {
  shots : nat;
  ticks : nat;
  engine_calls : list (ndarray * ndarray);
  records : list LogRecord }.

(** ** State, exception and fuel monad *)

(** A computation reads and changes the world and either returns, raises,
    or (result [None]) is still running when the fuel of a loop is spent. *)
Definition M (A : Type) : Type := World -> option (result A * World).

Definition ret {A} (a : A) : M A := fun w => Some (Ok a, w).

Definition raise {A} (e : exn) : M A := fun w => Some (Raise e, w).

Definition out_of_fuel {A} : M A := fun _ => None.

Definition bind {A B} (m : M A) (k : A -> M B) : M B :=
  fun w => match m w with
           | Some (Ok a, w') => k a w'
           | Some (Raise e, w') => Some (Raise e, w')
           | None => None
           end.

(** [try: m except e: handler]; what [m] did to the world before raising
    stays done. *)
Definition try_except {A} (m : M A) (e : exn) (handler : M A) : M A :=
  fun w => match m w with
           | Some (Ok a, w') => Some (Ok a, w')
           | Some (Raise e', w') =>
               if exn_eqb e' e then handler w' else Some (Raise e', w')
           | None => None
           end.

(** A computation that does not touch the world. *)
Definition lift {A} (r : option (result A)) : M A :=
  fun w => match r with Some a => Some (a, w) | None => None end.

Declare Scope py_scope.
Delimit Scope py_scope with py.
Notation "x <- m ;; k" := (bind m (fun x => k))
  (at level 100, m at next level, right associativity) : py_scope.
Notation "m ;;; k" := (bind m (fun _ => k))
  (at level 100, right associativity) : py_scope.
Open Scope py_scope.

Definition log_append (r : LogRecord) (w : World) : World :=
  mkWorld (shots w) (ticks w) (engine_calls w) (records w ++ [r]).

Definition logger_debug (r : LogRecord) : M unit :=
  fun w => Some (Ok tt, log_append r w).

Definition logger_warning (r : LogRecord) : M unit :=
  fun w => Some (Ok tt, log_append r w).

(** [ScreenshotImage(region=region)] *)
Definition new_ScreenshotImage (env : Env) (region : option Rectangle) : M ScreenshotImage :=
  fun w => Some (screenshot env (shots w) region,
                 mkWorld (S (shots w)) (ticks w) (engine_calls w) (records w)).

(** [cv2.matchTemplate(haystack, needle, FIND_METHOD)] *)
Definition call_matchTemplate (env : Env) (haystack needle : ndarray) : M Surface :=
  fun w => Some (cv2_matchTemplate env haystack needle,
                 mkWorld (shots w) (ticks w)
                         (engine_calls w ++ [(haystack, needle)]) (records w)).

(** [datetime.datetime.now()] *)
Definition now (env : Env) : M Z :=
  fun w => Some (Ok (datetime_now env (ticks w)),
                 mkWorld (shots w) (S (ticks w)) (engine_calls w) (records w)).

(** [datetime.timedelta(seconds=timeout)]: [None] is not a number. *)
Definition timedelta (timeout : option Z) : M Z :=
  match timeout with
  | Some t => ret t
  | None => raise TypeError
  end.

(** [region.width] and [region.height]: [None] has no attributes. *)
Definition getattr_width (region : option Rectangle) : M Z :=
  match region with
  | Some r => ret (rect_width r)
  | None => raise AttributeError
  end.

Definition getattr_height (region : option Rectangle) : M Z :=
  match region with
  | Some r => ret (rect_height r)
  | None => raise AttributeError
  end.

(** ** NumPy and OpenCV primitives on the score surface *)

(** Python's [range(a, b)]. *)
Definition range (a b : Z) : list Z := seqZ a (b - a).

(** Resolution of an index into a sequence of length [n]: [None] stands for
    [IndexError]. *)
Definition py_index (n : nat) (i : Z) : option nat :=
  if (0 <=? i) && (i <? Z.of_nat n) then Some (Z.to_nat i)
  else if (- Z.of_nat n <=? i) && (i <? 0) then Some (Z.to_nat (Z.of_nat n + i))
  else None.

(** [res[y][x]] *)
Definition getitem2 (res : Surface) (y x : Z) : option Q :=
  match py_index (length res) y with
  | None => None
  | Some j =>
      match res !! j with
      | None => None
      | Some row =>
          match py_index (length row) x with
          | None => None
          | Some i => row !! i
          end
      end
  end.

(** [res[y][x] = v]; [None] stands for [IndexError], raised by either of the
    two subscripts. *)
Definition setitem2 (res : Surface) (y x : Z) (v : Q) : option Surface :=
  match py_index (length res) y with
  | None => None
  | Some j =>
      match res !! j with
      | None => None
      | Some row =>
          match py_index (length row) x with
          | None => None
          | Some i => Some (<[j := <[i := v]> row]> res)
          end
      end
  end.

(** The cells of a surface in scan order, each with its [(x, y)]. *)
Fixpoint enumerate_row (y x : Z) (row : list Q) : list ((Z * Z) * Q) :=
  match row with
  | [] => []
  | v :: row' => ((x, y), v) :: enumerate_row y (x + 1) row'
  end.

Fixpoint enumerate_rows (y : Z) (res : Surface) : list ((Z * Z) * Q) :=
  match res with
  | [] => []
  | row :: res' => enumerate_row y 0 row ++ enumerate_rows (y + 1) res'
  end.

Definition ndenumerate (res : Surface) : list ((Z * Z) * Q) := enumerate_rows 0 res.

Definition keep_max (best c : (Z * Z) * Q) : (Z * Z) * Q :=
  if Qltb (snd best) (snd c) then c else best.

Definition keep_min (best c : (Z * Z) * Q) : (Z * Z) * Q :=
  if Qltb (snd c) (snd best) then c else best.

(** [cv2.minMaxLoc(res)]: the extreme scores and the [(x, y)] of their first
    occurrence in scan order; OpenCV rejects an empty array. *)
Definition cv2_minMaxLoc (res : Surface) : result (Q * Q * (Z * Z) * (Z * Z)) :=
  match ndenumerate res with
  | [] => Raise cv2_error
  | c :: cells =>
      let mn := foldl keep_min c cells in
      let mx := foldl keep_max c cells in
      Ok (snd mn, snd mx, fst mn, fst mx)
  end.

(** [int(s - n / 2)] and [int(s + n / 2)] for integers [s] and [n]: true
    division, then truncation toward zero. *)
Definition int_minus_half (s n : Z) : Z := Z.quot (2 * s - n) 2.
Definition int_plus_half (s n : Z) : Z := Z.quot (2 * s + n) 2.

(** ** The functions of [image_search.py] *)

Definition is_pattern_size_correct (pattern : Pattern) (region : option Rectangle) : M bool :=
  let '(p_width, p_height) := get_size pattern in
  r_width <- getattr_width region ;;
  r_height <- getattr_height region ;;
  let is_correct := true in
  is_correct <- (if p_width >? r_width
                 then logger_warning (warning_width p_width r_width) ;;; ret false
                 else ret is_correct) ;;
  is_correct <- (if p_height >? r_height
                 then logger_warning (warning_height p_height r_height) ;;; ret false
                 else ret is_correct) ;;
  ret is_correct.

Definition match_template (env : Env) (pattern : Pattern) (region : option Rectangle) : M Location :=
  logger_debug (debug_searching (get_filename pattern)) ;;;
  position <-
    try_except
      (stack_image <- new_ScreenshotImage env region ;;
       let precision := similarity pattern in
       let needle := if Qeq_bool precision EXACT_PRECISION
                     then get_color_image pattern else get_gray_image pattern in
       let haystack := if Qeq_bool precision EXACT_PRECISION
                       then stack_color_image stack_image
                       else stack_gray_image stack_image in
       res <- call_matchTemplate env (np_array haystack) (np_array needle) ;;
       m <- lift (Some (cv2_minMaxLoc res)) ;;
       let '(min_val, max_val, min_loc, max_loc) := m in
       if Qltb max_val precision
       then ret (mkLocation (-1) (-1))
       else ret (mkLocation (fst max_loc) (snd max_loc)))
      ScreenshotError
      (logger_warning warning_screenshot_failed ;;;
       ret (mkLocation (-1) (-1))) ;;
  if (loc_x position =? -1) || (loc_y position =? -1) then ret position
  else match region with
       | Some r => ret (mkLocation (loc_x position + rect_x r) (loc_y position + rect_y r))
       | None => ret position
       end.

(** The body of [try: res[y][x] = np.float32(-10000) except IndexError: pass]. *)
Definition suppress_cell (res : Surface) (y x : Z) : Surface :=
  match setitem2 res y x SUPPRESSED with
  | Some res' => res'
  | None => res
  end.

(** The two nested [for] loops over the window around [(sx, sy)]. *)
Definition suppress (res : Surface) (top_left : Z * Z) (size : Z * Z) : Surface :=
  let '(sx, sy) := top_left in
  let '(width, height) := size in
  foldl (fun res x =>
           foldl (fun res y => suppress_cell res y x) res
                 (range (int_minus_half sy height) (int_plus_half sy height)))
        res
        (range (int_minus_half sx width) (int_plus_half sx width)).

(** The [while True] loop of [match_template_multiple]; one unit of fuel per
    iteration. *)
Fixpoint extract_matches (fuel : nat) (pattern : Pattern) (threshold : Q)
    (res : Surface) (final_matches : list Location) : option (result (list Location)) :=
  match fuel with
  | O => None
  | S fuel' =>
      match cv2_minMaxLoc res with
      | Raise e => Some (Raise e)
      | Ok (min_val, max_val, min_loc, best_match) =>
          let precision := similarity pattern in
          let top_left :=
            if mode_eqb FIND_METHOD TM_SQDIFF || mode_eqb FIND_METHOD TM_SQDIFF_NORMED
            then min_loc else best_match in
          if Qltb max_val precision && Qltb threshold max_val then
            let res' := suppress res top_left (get_size pattern) in
            let new_match_point := mkLocation (fst top_left) (snd top_left) in
            extract_matches fuel' pattern threshold res' (final_matches ++ [new_match_point])
          else Some (Ok final_matches)
      end
  end.

Definition match_template_multiple (fuel : nat) (env : Env) (pattern : Pattern)
    (region : option Rectangle) (threshold : Q) : M (list Location) :=
  logger_debug (debug_searching (get_filename pattern)) ;;;
  try_except
    (stack_image <- new_ScreenshotImage env region ;;
     let precision := similarity pattern in
     let needle := if Qeq_bool precision EXACT_PRECISION
                   then get_rgb_array pattern else get_gray_array pattern in
     let haystack := if Qeq_bool precision EXACT_PRECISION
                     then stack_rgb_array stack_image
                     else stack_gray_array stack_image in
     res <- call_matchTemplate env haystack needle ;;
     lift (extract_matches fuel pattern threshold res []))
    ScreenshotError
    (logger_warning warning_screenshot_failed ;;;
     ret []).

(** The [while start_time < end_time] loop of [image_find]. *)
Fixpoint image_find_loop (fuel : nat) (env : Env) (pattern : Pattern)
    (region : option Rectangle) (start_time end_time : Z) : M (option Location) :=
  if start_time <? end_time then
    match fuel with
    | O => out_of_fuel
    | S fuel' =>
        let time_remaining := end_time - start_time in
        logger_debug (debug_remaining (get_filename pattern) time_remaining) ;;;
        pos <- match_template env pattern region ;;
        start_time <- now env ;;
        if negb (loc_x pos =? -1) then ret (Some pos)
        else image_find_loop fuel' env pattern region start_time end_time
    end
  else ret None.

Definition image_find (fuel : nat) (env : Env) (pattern : Pattern)
    (timeout : option Z) (region : option Rectangle) : M (option Location) :=
  is_correct <- is_pattern_size_correct pattern region ;;
  if negb is_correct then ret None else
  let timeout := match timeout with
                 | None => Some (auto_wait_timeout env)
                 | Some t => Some t
                 end in
  start_time <- now env ;;
  delta <- timedelta timeout ;;
  let end_time := start_time + delta in
  image_find_loop fuel env pattern region start_time end_time.

(** The [while pattern_found is True and start_time < end_time] loop of
    [image_vanish]; it returns the final [pattern_found]. *)
Fixpoint image_vanish_loop (fuel : nat) (env : Env) (pattern : Pattern)
    (region : option Rectangle) (pattern_found : bool) (start_time end_time : Z) : M bool :=
  if pattern_found && (start_time <? end_time) then
    match fuel with
    | O => out_of_fuel
    | S fuel' =>
        image_found <- match_template env pattern region ;;
        let pattern_found :=
          if negb (loc_x image_found =? -1) && negb (loc_y image_found =? -1)
          then true else false in
        start_time <- now env ;;
        image_vanish_loop fuel' env pattern region pattern_found start_time end_time
    end
  else ret pattern_found.

(** [image_vanish]: the Python result is [None] or [True]. *)
Definition image_vanish (fuel : nat) (env : Env) (pattern : Pattern)
    (timeout : option Z) (region : option Rectangle) : M (option bool) :=
  is_correct <- is_pattern_size_correct pattern region ;;
  if negb is_correct then ret None else
  let pattern_found := true in
  start_time <- now env ;;
  delta <- timedelta timeout ;;
  let end_time := start_time + delta in
  pattern_found <- image_vanish_loop fuel env pattern region pattern_found start_time end_time ;;
  ret (if pattern_found then None else Some true).

(** ** Notions used to state the properties *)

(** The score stored at row [j], column [i]. *)
Definition cell (res : Surface) (j i : nat) : option Q :=
  match res !! j with
  | Some row => row !! i
  | None => None
  end.

(** The row lengths of a surface. *)
Definition shape (res : Surface) : list nat := length <$> res.

(** The cell that the subscripts of [res[y][x]] denote, when they denote
    one. *)
Definition resolve (sh : list nat) (y x : Z) : option (nat * nat) :=
  match py_index (length sh) y with
  | None => None
  | Some j =>
      match sh !! j with
      | None => None
      | Some n =>
          match py_index n x with
          | None => None
          | Some i => Some (j, i)
          end
      end
  end.

(** The [(y, x)] subscripts that the nested loops of [suppress] visit, in
    the order they visit them. *)
Definition window (top_left size : Z * Z) : list (Z * Z) :=
  let '(sx, sy) := top_left in
  let '(width, height) := size in
  x ← range (int_minus_half sx width) (int_plus_half sx width);
  y ← range (int_minus_half sy height) (int_plus_half sy height);
  [(y, x)].

Definition suppress_cells (res : Surface) (cs : list (Z * Z)) : Surface :=
  foldl (fun r c => suppress_cell r (fst c) (snd c)) res cs.

Definition above (threshold : Q) (v : Q) : nat :=
  if Qltb threshold v then 1%nat else 0%nat.

Definition live (threshold : Q) (res : Surface) : nat :=
  sum_list_with (sum_list_with (above threshold)) res.

(** The arrays a search sends to the engine, by channel depth. *)
Definition single_match_arrays (pattern : Pattern) (img : ScreenshotImage)
    (color : bool) : ndarray * ndarray :=
  if color
  then (np_array (stack_color_image img), np_array (get_color_image pattern))
  else (np_array (stack_gray_image img), np_array (get_gray_image pattern)).

Definition multi_match_arrays (pattern : Pattern) (img : ScreenshotImage)
    (color : bool) : ndarray * ndarray :=
  if color
  then (stack_rgb_array img, get_rgb_array pattern)
  else (stack_gray_array img, get_gray_array pattern).

(** Rows and columns of a rectangular array. *)
Definition ndarray_shape {A} (a : list (list A)) (rows cols : Z) : Prop :=
  Z.of_nat (length a) = rows /\ Forall (fun row => Z.of_nat (length row) = cols) a.

(** A location that indexes a cell of a surface of the given shape. *)
Definition in_surface (sh : list nat) (loc : Location) : Prop :=
  exists (j i n : nat),
    loc = mkLocation (Z.of_nat i) (Z.of_nat j) /\ sh !! j = Some n /\ (i < n)%nat.

(** ** Sample data *)

Definition icon_gray : ndarray := [[[10]; [20]]; [[30]; [40]]].
Definition icon_rgb : ndarray := [[[10; 0; 0]; [20; 0; 0]]; [[30; 0; 0]; [40; 0; 0]]].

(** A 2x2 pattern "icon.png" with the given similarity. *)
Definition icon (precision : Q) : Pattern :=
  mkPattern precision "icon.png" (2, 2) (PIL icon_rgb) (PIL icon_gray) icon_rgb icon_gray.

(** A pattern one pixel wide and two high. *)
Definition sliver (precision : Q) : Pattern :=
  mkPattern precision "sliver.png" (1, 2)
    (PIL [[[10; 0; 0]]; [[30; 0; 0]]]) (PIL [[[10]]; [[30]]])
    [[[10; 0; 0]]; [[30; 0; 0]]] [[[10]]; [[30]]].

Definition screen_gray : ndarray :=
  [[[0]; [0]; [0]]; [[0]; [10]; [20]]; [[0]; [30]; [40]]].
Definition screen_rgb : ndarray :=
  [[[0; 0; 0]; [0; 0; 0]; [0; 0; 0]];
   [[0; 0; 0]; [10; 0; 0]; [20; 0; 0]];
   [[0; 0; 0]; [30; 0; 0]; [40; 0; 0]]].

Definition screen_image : ScreenshotImage :=
  mkScreenshotImage (PIL screen_rgb) (PIL screen_gray) screen_rgb screen_gray.

(** A 3x3 region away from the screen's origin. *)
Definition corner_region : Rectangle := mkRectangle 100 50 3 3.

(** Scores of the icon over the 3x3 capture: a perfect match at (1, 1). *)
Definition icon_surface : Surface := [[1 # 10; 2 # 10]; [3 # 10; 1 # 1]]%Q.

(** A world where the capture always succeeds, the engine always answers
    [icon_surface], and the clock advances 5 units between readings. *)
Definition steady_env : Env :=
  mkEnv (fun _ _ => Ok screen_image) (fun _ _ => Ok icon_surface)
        (fun k => 5 * Z.of_nat k) 30.

(** A world where the capture always fails. *)
Definition blind_env : Env :=
  mkEnv (fun _ _ => Raise ScreenshotError) (fun _ _ => Ok icon_surface)
        (fun k => 5 * Z.of_nat k) 30.

(** A 3x3 surface whose maximum sits in the top-left corner. *)
Definition corner_surface : Surface :=
  [[7 # 10; 6 # 10; 6 # 10]; [6 # 10; 6 # 10; 6 # 10]; [6 # 10; 6 # 10; 6 # 10]]%Q.

(** A one-row surface whose maximum is in column 1. *)
Definition strip_surface : Surface := [[6 # 10; 7 # 10]]%Q.

(** A 4x4 capture on which the engine answers [corner_surface]. *)
Definition wide_image : ScreenshotImage :=
  mkScreenshotImage (PIL (replicate 4 (replicate 4 [0; 0; 0])))
                    (PIL (replicate 4 (replicate 4 [0])))
                    (replicate 4 (replicate 4 [0; 0; 0]))
                    (replicate 4 (replicate 4 [0])).

Definition wide_region : Rectangle := mkRectangle 100 50 4 4.

Definition faint_env : Env :=
  mkEnv (fun _ _ => Ok wide_image) (fun _ _ => Ok corner_surface)
        (fun k => 5 * Z.of_nat k) 30.

Definition fresh_world : World := mkWorld 0 0 [] [].

(** A 3x3 capture without the icon, and the engine's scores on it. *)
Definition blank_image : ScreenshotImage :=
  mkScreenshotImage (PIL (replicate 3 (replicate 3 [0; 0; 0])))
                    (PIL (replicate 3 (replicate 3 [0])))
                    (replicate 3 (replicate 3 [0; 0; 0]))
                    (replicate 3 (replicate 3 [0])).

Definition faint_surface : Surface := [[1 # 10; 2 # 10]; [3 # 10; 4 # 10]]%Q.

Definition shows_icon (haystack : ndarray) : bool :=
  bool_decide (haystack = screen_gray) || bool_decide (haystack = screen_rgb).

(** A world where the icon is on screen from the third capture on. *)
Definition appearing_env : Env :=
  mkEnv (fun k _ => Ok (if (k <? 2)%nat then blank_image else screen_image))
        (fun haystack _ => Ok (if shows_icon haystack then icon_surface else faint_surface))
        (fun k => 5 * Z.of_nat k) 30.

(** A world where the icon is on screen for the first two captures only. *)
Definition vanishing_env : Env :=
  mkEnv (fun k _ => Ok (if (k <? 2)%nat then screen_image else blank_image))
        (fun haystack _ => Ok (if shows_icon haystack then icon_surface else faint_surface))
        (fun k => 5 * Z.of_nat k) 30.

(** A world where the engine rejects its arguments. *)
Definition broken_engine_env : Env :=
  mkEnv (fun _ _ => Ok screen_image) (fun _ _ => Raise cv2_error)
        (fun k => 5 * Z.of_nat k) 30.

(** ** Notions used to state the further properties *)

(** The score a surface holds at a location, [res[loc.y][loc.x]]. *)
Definition score_at (res : Surface) (loc : Location) : option Q :=
  getitem2 res (loc_y loc) (loc_x loc).

(** The first location scores at least as much as the second. *)
Definition scores_descend (res : Surface) (l1 l2 : Location) : Prop :=
  forall v1 v2, score_at res l1 = Some v1 -> score_at res l2 = Some v2 -> (v2 <= v1)%Q.

(** A region too small for the icon. *)
Definition tiny_region : Rectangle := mkRectangle 100 50 1 1.

(** A 4x4 pattern whose lower right quarter is the icon. *)
Definition poster_gray : ndarray :=
  [[[0]; [0]; [0]; [0]]; [[0]; [0]; [0]; [0]];
   [[0]; [0]; [10]; [20]]; [[0]; [0]; [30]; [40]]].
Definition poster_rgb : ndarray :=
  [[[0; 0; 0]; [0; 0; 0]; [0; 0; 0]; [0; 0; 0]];
   [[0; 0; 0]; [0; 0; 0]; [0; 0; 0]; [0; 0; 0]];
   [[0; 0; 0]; [0; 0; 0]; [10; 0; 0]; [20; 0; 0]];
   [[0; 0; 0]; [0; 0; 0]; [30; 0; 0]; [40; 0; 0]]].

Definition poster (precision : Q) : Pattern :=
  mkPattern precision "poster.png" (4, 4) (PIL poster_rgb) (PIL poster_gray)
            poster_rgb poster_gray.

(** A 2x2 region and its capture, which shows the icon. *)
Definition small_region : Rectangle := mkRectangle 100 50 2 2.

Definition small_image : ScreenshotImage :=
  mkScreenshotImage (PIL icon_rgb) (PIL icon_gray) icon_rgb icon_gray.

(** [cv2.matchTemplate] exchanges image and template when the image is the
    smaller of the two: for the 2x2 capture and the 4x4 poster it answers
    a 3x3 surface, one cell per placement of the capture in the poster,
    with its maximum where the capture matches, at (2, 2). *)
Definition poster_surface : Surface :=
  [[0 # 1; 1 # 10; 1 # 10]; [1 # 10; 2 # 10; 3 # 10]; [1 # 10; 3 # 10; 1 # 1]]%Q.

Definition exchanging_env : Env :=
  mkEnv (fun _ _ => Ok small_image) (fun _ _ => Ok poster_surface)
        (fun k => 5 * Z.of_nat k) 30.

(** ** The pytest hooks of [targets/firefox/app.py] *)

Module App.

(** A logging handler, known by its identity. *)
Abbreviation Handler := nat.

(** A pytest marker: its keyword arguments. *)
Record Marker := mkMarker { kwargs : gmap string string }.

(** A pytest item: what the hooks read of it. *)
Record Item := mkItem {
  _nodeid : string;
  own_markers : list Marker;
  catch_log_handler : Handler }.

(** What the hooks act on: the handlers of the root logger
    ([logging.getLogger().handlers]) and the messages passed to
    [logger.info]. *)
Record Loggers := mkLoggers {
  handlers : list Handler;
  info_messages : list string }.

Inductive exn := IndexError | ValueError.

Inductive outcome := Done | Raised (e : exn).

(** [l.remove(x)]: drops the first occurrence of [x]; [None] stands for
    [ValueError]. *)
Fixpoint list_remove (x : Handler) (l : list Handler) : option (list Handler) :=
  match l with
  | [] => None
  | y :: l' =>
      if bool_decide (y = x) then Some l'
      else match list_remove x l' with
           | Some l'' => Some (y :: l'')
           | None => None
           end
  end.

(** [s.split(':')[0]] *)
Fixpoint before_colon (s : string) : string :=
  match s with
  | EmptyString => EmptyString
  | String c s' => if Ascii.eqb c ":"%char then EmptyString else String c (before_colon s')
  end.

(** ['%s' % v] for a string or [None]. *)
Definition py_str (v : option string) : string :=
  match v with
  | Some s => s
  | None => "None"
  end.

Definition _disable_catchlog (item : Item) (st : Loggers) : outcome * Loggers :=
  if bool_decide (catch_log_handler item ∈ handlers st) then
    match list_remove (catch_log_handler item) (handlers st) with
    | Some hs => (Done, mkLoggers hs (info_messages st))
    | None => (Raised ValueError, st)
    end
  else (Done, st).

(** The hook wrappers, up to their [yield]; nothing follows it. *)
Definition pytest_runtest_setup (item : Item) (st : Loggers) : outcome * Loggers :=
  _disable_catchlog item st.

Definition pytest_runtest_call (item : Item) (st : Loggers) : outcome * Loggers :=
  let test_file := before_colon (_nodeid item) in
  match own_markers item with
  | [] => (Raised IndexError, st)
  | marker :: _ =>
      let description := kwargs marker !! "description"%string in
      let message :=
        ("Executing: - [" ++ test_file ++ "]: " ++ py_str description)%string in
      _disable_catchlog item
        (mkLoggers (handlers st) (info_messages st ++ [message]))
  end.

Definition pytest_runtest_teardown (item : Item) (st : Loggers) : outcome * Loggers :=
  _disable_catchlog item st.

End App.

(** A test item with one marker, and one with none. *)
Definition described_item : App.Item :=
  App.mkItem "tests/test_tabs.py::test_run"
    [App.mkMarker {[ "description"%string := "Tabs open"%string ]}] 7.

Definition bare_item : App.Item := App.mkItem "tests/test_tabs.py::test_run" [] 7.

(** ** Running the monad in proofs *)

Ltac run :=
  unfold match_template, match_template_multiple, is_pattern_size_correct,
    image_find, image_vanish, bind, try_except, ret, raise, lift, out_of_fuel,
    logger_debug, logger_warning, new_ScreenshotImage, call_matchTemplate,
    now, timedelta, getattr_width, getattr_height, log_append in *;
  simpl in *.

(** Case analysis on a scrutinee that is not itself a [match]. *)
Ltac case_scrutinee :=
  match goal with
  | |- context [match ?x with _ => _ end] =>
      lazymatch x with
      | context [match _ with _ => _ end] => fail
      | _ => destruct x eqn:?
      end
  | H : context [match ?x with _ => _ end] |- _ =>
      lazymatch x with
      | context [match _ with _ => _ end] => fail
      | _ => destruct x eqn:?
      end
  end.

(** Closes a goal about a clock reading with a hypothesis about the same
    reading written differently. *)
Ltac same_reading H :=
  match type of H with
  | _ <= datetime_now _ ?a =>
      match goal with
      | |- _ <= datetime_now _ ?b =>
          replace b with a by (simpl in *; lia); exact H
      end
  end.

(** * Properties *)

(** ** Comparisons of scores *)

Lemma Qltb_lt (a b : Q) : Qltb a b = true <-> (a < b)%Q.
Proof.
  unfold Qltb. rewrite negb_true_iff. split.
  - intros H. apply Qnot_le_lt. intros Hle.
    apply Qle_bool_iff in Hle. congruence.
  - intros H. destruct (Qle_bool b a) eqn:E; [|reflexivity].
    apply Qle_bool_iff in E. exfalso. exact (Qlt_not_le _ _ H E).
Qed.

Lemma Qltb_ge (a b : Q) : Qltb a b = false <-> (b <= a)%Q.
Proof.
  unfold Qltb. rewrite negb_false_iff. apply Qle_bool_iff.
Qed.

(** ** Cells of a surface *)

Lemma py_index_lt (n : nat) (i : Z) (k : nat) :
  py_index n i = Some k -> (k < n)%nat.
Proof.
  unfold py_index. intros H.
  destruct ((0 <=? i) && (i <? Z.of_nat n)) eqn:E1.
  - apply andb_true_iff in E1 as [? ?]. inversion H; subst. lia.
  - destruct ((- Z.of_nat n <=? i) && (i <? 0)) eqn:E2; [|discriminate].
    apply andb_true_iff in E2 as [? ?]. inversion H; subst. lia.
Qed.

Lemma py_index_nonneg (n : nat) (i : Z) :
  0 <= i < Z.of_nat n -> py_index n i = Some (Z.to_nat i).
Proof.
  intros H. unfold py_index.
  replace ((0 <=? i) && (i <? Z.of_nat n)) with true; [reflexivity|].
  symmetry. apply andb_true_iff. split; lia.
Qed.

Lemma py_index_nonneg_inv (n : nat) (i : Z) (k : nat) :
  0 <= i -> py_index n i = Some k -> k = Z.to_nat i /\ i < Z.of_nat n.
Proof.
  intros Hi. unfold py_index.
  destruct ((0 <=? i) && (i <? Z.of_nat n)) eqn:E1.
  - apply andb_true_iff in E1 as [Ha Hb]. intros Hk; inversion Hk. lia.
  - destruct ((- Z.of_nat n <=? i) && (i <? 0)) eqn:E2; [|discriminate].
    apply andb_true_iff in E2 as [Ha Hb]. lia.
Qed.

Lemma shape_length (res : Surface) : length (shape res) = length res.
Proof. unfold shape. apply length_fmap. Qed.

Lemma shape_lookup (res : Surface) (j : nat) :
  shape res !! j = length <$> (res !! j).
Proof. unfold shape. apply list_lookup_fmap. Qed.

Lemma setitem2_resolve (res : Surface) (y x : Z) (v : Q) :
  setitem2 res y x v =
    match resolve (shape res) y x with
    | Some (j, i) =>
        match res !! j with
        | Some row => Some (<[j := <[i := v]> row]> res)
        | None => None
        end
    | None => None
    end.
Proof.
  unfold setitem2, resolve. rewrite shape_length.
  destruct (py_index (length res) y) as [j|]; [|reflexivity].
  rewrite shape_lookup. destruct (res !! j) as [row|] eqn:E; simpl; [|reflexivity].
  destruct (py_index (length row) x); [|reflexivity].
  rewrite E. reflexivity.
Qed.

Lemma resolve_Some (res : Surface) (y x : Z) (j i : nat) :
  resolve (shape res) y x = Some (j, i) ->
  exists row, res !! j = Some row /\ (i < length row)%nat.
Proof.
  unfold resolve. rewrite shape_length.
  destruct (py_index (length res) y) as [j'|]; [|discriminate].
  rewrite shape_lookup. destruct (res !! j') as [row|] eqn:E; simpl; [|discriminate].
  destruct (py_index (length row) x) as [i'|] eqn:Ei; [|discriminate].
  intros H; inversion H; subst. exists row. split; [assumption|].
  eapply py_index_lt; eassumption.
Qed.

Lemma resolve_in_bounds (res : Surface) (y x : Z) (row : list Q) :
  res !! Z.to_nat y = Some row -> 0 <= y -> 0 <= x < Z.of_nat (length row) ->
  resolve (shape res) y x = Some (Z.to_nat y, Z.to_nat x).
Proof.
  intros Hrow Hy Hx. unfold resolve. rewrite shape_length.
  rewrite py_index_nonneg.
  - rewrite shape_lookup, Hrow. simpl. rewrite py_index_nonneg by assumption.
    reflexivity.
  - apply lookup_lt_Some in Hrow. lia.
Qed.

Lemma shape_suppress_cell (res : Surface) (y x : Z) :
  shape (suppress_cell res y x) = shape res.
Proof.
  unfold suppress_cell. rewrite setitem2_resolve.
  destruct (resolve (shape res) y x) as [[j i]|]; [|reflexivity].
  destruct (res !! j) as [row|] eqn:E; [|reflexivity].
  unfold shape. rewrite list_fmap_insert, length_insert.
  apply list_insert_id. rewrite list_lookup_fmap, E. reflexivity.
Qed.

Lemma cell_suppress_cell_hit (res : Surface) (y x : Z) (j i : nat) :
  resolve (shape res) y x = Some (j, i) ->
  cell (suppress_cell res y x) j i = Some SUPPRESSED.
Proof.
  intros H. destruct (resolve_Some _ _ _ _ _ H) as (row & Hrow & Hi).
  unfold suppress_cell. rewrite setitem2_resolve, H, Hrow.
  unfold cell. rewrite list_lookup_insert_eq by (eapply lookup_lt_Some; eassumption).
  apply list_lookup_insert_eq. assumption.
Qed.

Lemma cell_suppress_cell_miss (res : Surface) (y x : Z) (j i : nat) :
  resolve (shape res) y x <> Some (j, i) ->
  cell (suppress_cell res y x) j i = cell res j i.
Proof.
  intros H. unfold suppress_cell. rewrite setitem2_resolve.
  destruct (resolve (shape res) y x) as [[j' i']|] eqn:E; [|reflexivity].
  destruct (res !! j') as [row|] eqn:Hrow; [|reflexivity].
  unfold cell. destruct (decide (j' = j)) as [->|Hj].
  - rewrite list_lookup_insert_eq by (eapply lookup_lt_Some; eassumption).
    rewrite Hrow. apply list_lookup_insert_ne. congruence.
  - rewrite list_lookup_insert_ne by assumption. reflexivity.
Qed.

(** ** The suppression window, cell by cell *)

Lemma suppress_cells_app (res : Surface) (cs ds : list (Z * Z)) :
  suppress_cells res (cs ++ ds) = suppress_cells (suppress_cells res cs) ds.
Proof. unfold suppress_cells. apply foldl_app. Qed.

Lemma suppress_window (res : Surface) (top_left size : Z * Z) :
  suppress res top_left size = suppress_cells res (window top_left size).
Proof.
  destruct top_left as [sx sy], size as [width height]. unfold suppress, window.
  generalize (range (int_minus_half sx width) (int_plus_half sx width)) as xs.
  generalize (range (int_minus_half sy height) (int_plus_half sy height)) as ys.
  intros ys xs. revert res.
  induction xs as [|x xs IH]; intros res; [reflexivity|].
  simpl. rewrite suppress_cells_app, <- IH. f_equal.
  clear IH. revert res. induction ys as [|y ys IHy]; intros res; [reflexivity|].
  simpl. apply IHy.
Qed.

Lemma elem_of_window (sx sy width height y x : Z) :
  (y, x) ∈ window (sx, sy) (width, height) <->
  (int_minus_half sx width <= x < int_plus_half sx width) /\
  (int_minus_half sy height <= y < int_plus_half sy height).
Proof.
  unfold window, range. rewrite list_elem_of_bind. split.
  - intros (x' & Hy & Hx). apply list_elem_of_bind in Hy as (y' & Hc & Hy).
    apply list_elem_of_singleton in Hc. inversion Hc; subst.
    apply elem_of_seqZ in Hx, Hy. lia.
  - intros [Hx Hy]. exists x. split; [|apply elem_of_seqZ; lia].
    apply list_elem_of_bind. exists y. split; [apply list_elem_of_singleton; reflexivity|].
    apply elem_of_seqZ. lia.
Qed.

Lemma shape_suppress_cells (res : Surface) (cs : list (Z * Z)) :
  shape (suppress_cells res cs) = shape res.
Proof.
  revert res. induction cs as [|c cs IH]; intros res; [reflexivity|].
  simpl. rewrite IH. apply shape_suppress_cell.
Qed.

Lemma cell_suppress_cell_keeps (res : Surface) (y x : Z) (j i : nat) :
  cell res j i = Some SUPPRESSED ->
  cell (suppress_cell res y x) j i = Some SUPPRESSED.
Proof.
  intros H. destruct (decide (resolve (shape res) y x = Some (j, i))) as [E|E].
  - apply cell_suppress_cell_hit; assumption.
  - rewrite cell_suppress_cell_miss; assumption.
Qed.

Lemma cell_suppress_cells_keeps (res : Surface) (cs : list (Z * Z)) (j i : nat) :
  cell res j i = Some SUPPRESSED ->
  cell (suppress_cells res cs) j i = Some SUPPRESSED.
Proof.
  revert res. induction cs as [|c cs IH]; intros res H; [assumption|].
  simpl. apply IH, cell_suppress_cell_keeps, H.
Qed.

(** A cell that some subscript pair of the list denotes ends suppressed. *)
Lemma cell_suppress_cells_hit (res : Surface) (cs : list (Z * Z)) (c : Z * Z) (j i : nat) :
  c ∈ cs -> resolve (shape res) (fst c) (snd c) = Some (j, i) ->
  cell (suppress_cells res cs) j i = Some SUPPRESSED.
Proof.
  revert res. induction cs as [|d cs IH]; intros res Hin Hres.
  - inversion Hin.
  - simpl. apply elem_of_cons in Hin as [->|Hin].
    + apply cell_suppress_cells_keeps, cell_suppress_cell_hit, Hres.
    + apply IH; [assumption|]. rewrite shape_suppress_cell. assumption.
Qed.

(** A cell that no subscript pair of the list denotes keeps its score. *)
Lemma cell_suppress_cells_miss (res : Surface) (cs : list (Z * Z)) (j i : nat) :
  (forall c, c ∈ cs -> resolve (shape res) (fst c) (snd c) <> Some (j, i)) ->
  cell (suppress_cells res cs) j i = cell res j i.
Proof.
  revert res. induction cs as [|d cs IH]; intros res H; [reflexivity|].
  simpl. rewrite IH.
  - apply cell_suppress_cell_miss, H. left.
  - intros c Hc. rewrite shape_suppress_cell. apply H. right. assumption.
Qed.

(** ** Counting the cells above the overlap threshold *)

Lemma sum_list_with_insert {A} (f : A -> nat) (l : list A) (i : nat) (a b : A) :
  l !! i = Some a ->
  (sum_list_with f (<[i := b]> l) + f a = sum_list_with f l + f b)%nat.
Proof.
  revert i. induction l as [|x l IH]; intros i H; [discriminate|].
  destruct i as [|i]; simpl in *.
  - inversion H; subst. lia.
  - specialize (IH i H). lia.
Qed.

Lemma live_suppress_cell_hit (threshold : Q) (res : Surface) (y x : Z) (j i : nat) (v : Q) :
  resolve (shape res) y x = Some (j, i) -> cell res j i = Some v ->
  (live threshold (suppress_cell res y x) + above threshold v
   = live threshold res + above threshold SUPPRESSED)%nat.
Proof.
  intros Hres Hv. unfold suppress_cell. rewrite setitem2_resolve, Hres.
  unfold cell in Hv. destruct (res !! j) as [row|] eqn:Hrow; [|discriminate].
  unfold live.
  pose proof (sum_list_with_insert (sum_list_with (above threshold)) res j row
                (<[i := SUPPRESSED]> row) Hrow) as H1.
  pose proof (sum_list_with_insert (above threshold) row i v SUPPRESSED Hv) as H2.
  lia.
Qed.

Lemma live_suppress_cell_le (threshold : Q) (res : Surface) (y x : Z) :
  Qltb threshold SUPPRESSED = false ->
  (live threshold (suppress_cell res y x) <= live threshold res)%nat.
Proof.
  intros Hs. destruct (resolve (shape res) y x) as [[j i]|] eqn:Hres.
  - destruct (resolve_Some _ _ _ _ _ Hres) as (row & Hrow & Hi).
    destruct (lookup_lt_is_Some_2 row i Hi) as [v Hv].
    pose proof (live_suppress_cell_hit threshold res y x j i v Hres) as H.
    unfold cell in H. rewrite Hrow in H. specialize (H Hv).
    unfold above in H at 2. rewrite Hs in H. lia.
  - unfold suppress_cell. rewrite setitem2_resolve, Hres. lia.
Qed.

Lemma live_suppress_cells_le (threshold : Q) (res : Surface) (cs : list (Z * Z)) :
  Qltb threshold SUPPRESSED = false ->
  (live threshold (suppress_cells res cs) <= live threshold res)%nat.
Proof.
  intros Hs. revert res. induction cs as [|c cs IH]; intros res; [simpl; lia|].
  simpl. etransitivity; [apply IH|]. apply live_suppress_cell_le, Hs.
Qed.

(** Suppressing a list of cells that reaches a cell above the threshold
    lowers the count. *)
Lemma live_suppress_cells_lt (threshold : Q) (res : Surface) (cs : list (Z * Z))
    (c : Z * Z) (j i : nat) (v : Q) :
  Qltb threshold SUPPRESSED = false ->
  c ∈ cs -> resolve (shape res) (fst c) (snd c) = Some (j, i) ->
  cell res j i = Some v -> Qltb threshold v = true ->
  (live threshold (suppress_cells res cs) < live threshold res)%nat.
Proof.
  intros Hs. revert res. induction cs as [|d cs IH]; intros res Hin Hres Hv Hlive.
  - inversion Hin.
  - simpl.
    destruct (decide (resolve (shape res) (fst d) (snd d) = Some (j, i))) as [E|E].
    + pose proof (live_suppress_cell_hit threshold res _ _ j i v E Hv) as H.
      unfold above in H. rewrite Hs, Hlive in H.
      pose proof (live_suppress_cells_le threshold
                    (suppress_cell res (fst d) (snd d)) cs Hs). lia.
    + apply elem_of_cons in Hin as [->|Hin]; [contradiction|].
      pose proof (live_suppress_cell_le threshold res (fst d) (snd d) Hs).
      enough (live threshold (suppress_cells (suppress_cell res (fst d) (snd d)) cs)
              < live threshold (suppress_cell res (fst d) (snd d)))%nat by lia.
      apply IH; [assumption| |rewrite cell_suppress_cell_miss; assumption|assumption].
      rewrite shape_suppress_cell. assumption.
Qed.

(** ** [cv2.minMaxLoc] *)

Lemma elem_of_enumerate_row (y x0 : Z) (row : list Q) (x y' : Z) (v : Q) :
  ((x, y'), v) ∈ enumerate_row y x0 row <->
  y' = y /\ exists i : nat, x = x0 + Z.of_nat i /\ row !! i = Some v.
Proof.
  revert x0. induction row as [|u row IH]; intros x0; simpl.
  - split; [intros H; inversion H|intros (_ & i & _ & H); discriminate].
  - rewrite elem_of_cons, IH. split.
    + intros [H|(-> & i & -> & H)].
      * inversion H; subst. split; [reflexivity|]. exists 0%nat. split; [lia|reflexivity].
      * split; [reflexivity|]. exists (S i). split; [lia|assumption].
    + intros (-> & [|i] & -> & H); simpl in H.
      * left. inversion H. do 2 f_equal. lia.
      * right. split; [reflexivity|]. exists i. split; [lia|assumption].
Qed.

Lemma elem_of_enumerate_rows (y0 : Z) (res : Surface) (x y : Z) (v : Q) :
  ((x, y), v) ∈ enumerate_rows y0 res <->
  exists j i : nat, y = y0 + Z.of_nat j /\ x = Z.of_nat i /\ cell res j i = Some v.
Proof.
  revert y0. induction res as [|row res IH]; intros y0; simpl.
  - split; [intros H; inversion H|intros (j & i & _ & _ & H); discriminate].
  - rewrite elem_of_app, elem_of_enumerate_row, IH. split.
    + intros [(-> & i & -> & H)|(j & i & -> & -> & H)].
      * exists 0%nat, i. repeat split; [lia|assumption].
      * exists (S j), i. repeat split; [lia|assumption].
    + intros ([|j] & i & -> & -> & H).
      * left. split; [lia|]. exists i. split; [lia|assumption].
      * right. exists j, i. repeat split; [lia|assumption].
Qed.

Lemma elem_of_ndenumerate (res : Surface) (x y : Z) (v : Q) :
  ((x, y), v) ∈ ndenumerate res <->
  exists j i : nat, y = Z.of_nat j /\ x = Z.of_nat i /\ cell res j i = Some v.
Proof. unfold ndenumerate. rewrite elem_of_enumerate_rows. reflexivity. Qed.

Lemma foldl_keep_max_in (c : (Z * Z) * Q) (cells : list ((Z * Z) * Q)) :
  foldl keep_max c cells ∈ c :: cells.
Proof.
  revert c. induction cells as [|d cells IH]; intros c; simpl; [left|].
  specialize (IH (keep_max c d)). apply elem_of_cons in IH as [->|IH].
  - unfold keep_max. destruct (Qltb (snd c) (snd d)); [right; left|left].
  - right; right; assumption.
Qed.

Lemma foldl_keep_max_start (c : (Z * Z) * Q) (cells : list ((Z * Z) * Q)) :
  (snd c <= snd (foldl keep_max c cells))%Q.
Proof.
  revert c. induction cells as [|d cells IH]; intros c; simpl; [apply Qle_refl|].
  eapply Qle_trans; [|apply IH]. unfold keep_max.
  destruct (Qltb (snd c) (snd d)) eqn:E; [|apply Qle_refl].
  apply Qlt_le_weak, Qltb_lt, E.
Qed.

Lemma foldl_keep_max_upper (c : (Z * Z) * Q) (cells : list ((Z * Z) * Q)) (d : (Z * Z) * Q) :
  d ∈ c :: cells -> (snd d <= snd (foldl keep_max c cells))%Q.
Proof.
  revert c. induction cells as [|e cells IH]; intros c Hd.
  - apply list_elem_of_singleton in Hd as ->. apply Qle_refl.
  - simpl. apply elem_of_cons in Hd as [->|Hd].
    + eapply Qle_trans; [|apply foldl_keep_max_start]. unfold keep_max.
      destruct (Qltb (snd c) (snd e)) eqn:E; [|apply Qle_refl].
      apply Qlt_le_weak, Qltb_lt, E.
    + apply elem_of_cons in Hd as [->|Hd].
      * eapply Qle_trans; [|apply foldl_keep_max_start]. unfold keep_max.
        destruct (Qltb (snd c) (snd e)) eqn:E; [apply Qle_refl|].
        apply Qltb_ge, E.
      * apply IH. right. assumption.
Qed.

(** What [cv2.minMaxLoc] reports as the maximum: a cell of the surface that
    holds the greatest score. *)
Lemma cv2_minMaxLoc_max (res : Surface) (min_val max_val : Q) (min_loc max_loc : Z * Z) :
  cv2_minMaxLoc res = Ok (min_val, max_val, min_loc, max_loc) ->
  exists j i : nat,
    max_loc = (Z.of_nat i, Z.of_nat j) /\ cell res j i = Some max_val /\
    forall j' i' v, cell res j' i' = Some v -> (v <= max_val)%Q.
Proof.
  unfold cv2_minMaxLoc. destruct (ndenumerate res) as [|c cells] eqn:E; [discriminate|].
  intros H. inversion H; subst; clear H.
  pose proof (foldl_keep_max_in c cells) as Hin. rewrite <- E in Hin.
  destruct (foldl keep_max c cells) as [[x y] v] eqn:Ef.
  apply elem_of_ndenumerate in Hin as (j & i & -> & -> & Hc).
  exists j, i. simpl. repeat split; [assumption|].
  intros j' i' v' Hv'.
  assert (((Z.of_nat i', Z.of_nat j'), v') ∈ c :: cells) as Hin'.
  { rewrite <- E. apply elem_of_ndenumerate. eauto. }
  apply foldl_keep_max_upper in Hin'. rewrite Ef in Hin'. exact Hin'.
Qed.

(** A surface with at least one cell has extremes; an empty one is the only
    input [cv2.minMaxLoc] rejects. *)
Lemma cv2_minMaxLoc_Ok (res : Surface) (j i : nat) (v : Q) :
  cell res j i = Some v ->
  exists min_val max_val min_loc max_loc,
    cv2_minMaxLoc res = Ok (min_val, max_val, min_loc, max_loc).
Proof.
  intros H. unfold cv2_minMaxLoc.
  destruct (ndenumerate res) as [|c cells] eqn:E; [|eauto].
  assert (((Z.of_nat i, Z.of_nat j), v) ∈ ndenumerate res) as Hin
    by (apply elem_of_ndenumerate; eauto).
  rewrite E in Hin. inversion Hin.
Qed.

Lemma cell_shape (res : Surface) (j i : nat) :
  is_Some (cell res j i) <-> exists n, shape res !! j = Some n /\ (i < n)%nat.
Proof.
  unfold cell. rewrite shape_lookup. destruct (res !! j) as [row|]; simpl.
  - rewrite lookup_lt_is_Some. split; [eauto|]. intros (n & Hn & Hi).
    inversion Hn; subst. assumption.
  - split; [intros [? ?]; discriminate|intros (n & Hn & _); discriminate].
Qed.

(** ** The extraction loop of [match_template_multiple] *)

(** One iteration of the loop, given what [cv2.minMaxLoc] reports. *)
Lemma extract_matches_step (fuel : nat) (pattern : Pattern) (threshold : Q)
    (res : Surface) (acc : list Location)
    (min_val max_val : Q) (min_loc max_loc : Z * Z) :
  cv2_minMaxLoc res = Ok (min_val, max_val, min_loc, max_loc) ->
  extract_matches (S fuel) pattern threshold res acc =
    if Qltb max_val (similarity pattern) && Qltb threshold max_val
    then extract_matches fuel pattern threshold
           (suppress res max_loc (get_size pattern))
           (acc ++ [mkLocation (fst max_loc) (snd max_loc)])
    else Some (Ok acc).
Proof. intros H. simpl. rewrite H. reflexivity. Qed.

Lemma resolve_inv (sh : list nat) (y x : Z) (j i : nat) :
  resolve sh y x = Some (j, i) ->
  exists n, py_index (length sh) y = Some j /\ sh !! j = Some n /\ py_index n x = Some i.
Proof.
  unfold resolve. destruct (py_index (length sh) y) as [j'|]; [|discriminate].
  destruct (sh !! j') as [n|] eqn:E; [|discriminate].
  destruct (py_index n x) as [i'|] eqn:Ei; [|discriminate].
  intros H; inversion H; subst. eauto.
Qed.

Lemma int_half_window (s n : Z) :
  0 <= s -> 2 <= n -> int_minus_half s n <= s < int_plus_half s n.
Proof.
  intros Hs Hn. unfold int_minus_half, int_plus_half.
  Z.to_euclidean_division_equations. lia.
Qed.

(** For a side of one pixel the range is empty at coordinate 0 and is the
    single coordinate just before [s] elsewhere. *)
Lemma int_half_one (s : Z) :
  0 <= s ->
  int_plus_half s 1 = s /\ int_minus_half s 1 = (if s =? 0 then 0 else s - 1).
Proof.
  intros Hs. unfold int_minus_half, int_plus_half.
  destruct (Z.eqb_spec s 0) as [->|Hne]; [split; reflexivity|].
  Z.to_euclidean_division_equations. lia.
Qed.

(** With both sides of the pattern at least 2, the window reaches the cell
    of the maximum, which ends suppressed. *)
Lemma suppress_erases_max (res : Surface) (width height : Z) (j i : nat) (v : Q) :
  2 <= width -> 2 <= height -> cell res j i = Some v ->
  (Z.of_nat j, Z.of_nat i) ∈ window (Z.of_nat i, Z.of_nat j) (width, height) /\
  resolve (shape res) (Z.of_nat j) (Z.of_nat i) = Some (j, i) /\
  cell (suppress res (Z.of_nat i, Z.of_nat j) (width, height)) j i = Some SUPPRESSED.
Proof.
  intros Hw Hh Hv.
  assert ((Z.of_nat j, Z.of_nat i) ∈ window (Z.of_nat i, Z.of_nat j) (width, height)) as Hin.
  { apply elem_of_window. split; apply int_half_window; lia. }
  assert (resolve (shape res) (Z.of_nat j) (Z.of_nat i) = Some (j, i)) as Hres.
  { unfold cell in Hv. destruct (res !! j) as [row|] eqn:Hrow; [|discriminate].
    rewrite (resolve_in_bounds res _ _ row); rewrite ?Nat2Z.id; try assumption; try lia.
    - reflexivity.
    - apply lookup_lt_Some in Hv. lia. }
  repeat split; [assumption..|].
  rewrite suppress_window.
  apply (cell_suppress_cells_hit res _ (Z.of_nat j, Z.of_nat i)); assumption.
Qed.

(** With a side of one pixel, no subscript of the window denotes the cell of
    the maximum, which keeps its score. *)
Lemma suppress_spares_max (res : Surface) (width height : Z) (j i : nat) :
  width = 1 \/ height = 1 ->
  cell (suppress res (Z.of_nat i, Z.of_nat j) (width, height)) j i = cell res j i.
Proof.
  intros Hone. rewrite suppress_window. apply cell_suppress_cells_miss.
  intros [y x] Hin Hres. apply elem_of_window in Hin as [Hx Hy]. simpl in Hres.
  apply resolve_inv in Hres as (n & Hj & _ & Hi).
  destruct Hone as [-> | ->].
  - destruct (int_half_one (Z.of_nat i) ltac:(lia)) as [Hhi Hlo].
    rewrite Hhi, Hlo in Hx. destruct (Z.eqb_spec (Z.of_nat i) 0); [lia|].
    apply py_index_nonneg_inv in Hi; lia.
  - destruct (int_half_one (Z.of_nat j) ltac:(lia)) as [Hhi Hlo].
    rewrite Hhi, Hlo in Hy. destruct (Z.eqb_spec (Z.of_nat j) 0); [lia|].
    apply py_index_nonneg_inv in Hj; lia.
Qed.

(** Every cell after a suppression step holds its former score or the
    suppression score. *)
Lemma cell_suppress_cases (res : Surface) (top_left size : Z * Z) (j i : nat) :
  cell (suppress res top_left size) j i = cell res j i \/
  cell (suppress res top_left size) j i = Some SUPPRESSED.
Proof.
  rewrite suppress_window. generalize (window top_left size) as cs. intros cs.
  revert res. induction cs as [|c cs IH]; intros res; [left; reflexivity|].
  simpl. destruct (IH (suppress_cell res (fst c) (snd c))) as [H|H]; [|right; exact H].
  destruct (decide (resolve (shape res) (fst c) (snd c) = Some (j, i))) as [E|E].
  - right. apply cell_suppress_cells_keeps, cell_suppress_cell_hit, E.
  - left. rewrite H. apply cell_suppress_cell_miss, E.
Qed.

Lemma extract_matches_enough_fuel (pattern : Pattern) (threshold : Q) (n : nat) :
  2 <= fst (get_size pattern) -> 2 <= snd (get_size pattern) ->
  Qltb threshold SUPPRESSED = false ->
  forall (res : Surface) (acc : list Location) (j i : nat) (v : Q),
    (live threshold res <= n)%nat -> cell res j i = Some v ->
    exists out, extract_matches (S n) pattern threshold res acc = Some (Ok out).
Proof.
  intros Hw Hh Hs. induction n as [|n IH]; intros res acc j i v Hlive Hcell.
  all: destruct (cv2_minMaxLoc_Ok res j i v Hcell) as (mn & mx & mnl & mxl & Hmm).
  all: rewrite (extract_matches_step _ _ _ _ _ _ _ _ _ Hmm).
  all: destruct (Qltb mx (similarity pattern) && Qltb threshold mx) eqn:Hacc; [|eauto].
  all: apply andb_true_iff in Hacc as [_ Habove].
  all: destruct (cv2_minMaxLoc_max _ _ _ _ _ Hmm) as (j0 & i0 & -> & Hmax & _).
  all: destruct (get_size pattern) as [width height]; simpl in Hw, Hh.
  all: destruct (suppress_erases_max res width height j0 i0 mx Hw Hh Hmax)
         as (Hin & Hres & Herased).
  all: pose proof (live_suppress_cells_lt threshold res _ _ j0 i0 mx Hs Hin Hres Hmax Habove)
         as Hlt.
  all: rewrite <- suppress_window in Hlt.
  - lia.
  - eapply IH; [|exact Herased]. lia.
Qed.

Lemma getitem2_resolve (res : Surface) (y x : Z) :
  getitem2 res y x =
    match resolve (shape res) y x with
    | Some (j, i) => cell res j i
    | None => None
    end.
Proof.
  unfold getitem2, resolve, cell. rewrite shape_length.
  destruct (py_index (length res) y) as [j|]; [|reflexivity].
  rewrite shape_lookup. destruct (res !! j) as [row|] eqn:E; simpl; [|reflexivity].
  destruct (py_index (length row) x); [|reflexivity].
  rewrite E. reflexivity.
Qed.

(** Reading [res[y][x]] at the non-negative coordinates of a cell. *)
Lemma getitem2_cell (res : Surface) (j i : nat) (v : Q) :
  cell res j i = Some v -> getitem2 res (Z.of_nat j) (Z.of_nat i) = cell res j i.
Proof.
  intros Hv. rewrite getitem2_resolve.
  unfold cell in Hv. destruct (res !! j) as [row|] eqn:Hrow; [|discriminate].
  rewrite (resolve_in_bounds res _ _ row); rewrite ?Nat2Z.id; try assumption; try lia.
  - reflexivity.
  - apply lookup_lt_Some in Hv. lia.
Qed.

(** With a side of one pixel an accepted maximum stays in place, so every
    later iteration accepts again: no amount of fuel ends the loop. *)
Lemma extract_matches_diverges (pattern : Pattern) (threshold : Q) :
  fst (get_size pattern) = 1 \/ snd (get_size pattern) = 1 ->
  Qltb threshold SUPPRESSED = false ->
  forall (fuel : nat) (res : Surface) (acc : list Location)
         (min_val max_val : Q) (min_loc max_loc : Z * Z),
    cv2_minMaxLoc res = Ok (min_val, max_val, min_loc, max_loc) ->
    Qltb max_val (similarity pattern) && Qltb threshold max_val = true ->
    extract_matches fuel pattern threshold res acc = None.
Proof.
  intros Hone Hs. induction fuel as [|fuel IH]; intros res acc mn mx mnl mxl Hmm Hacc;
    [reflexivity|].
  rewrite (extract_matches_step _ _ _ _ _ _ _ _ _ Hmm), Hacc.
  destruct (cv2_minMaxLoc_max _ _ _ _ _ Hmm) as (j & i & -> & Hmax & Hupper).
  destruct (get_size pattern) as [width height] eqn:Hsize; simpl in Hone.
  pose proof (suppress_spares_max res width height j i Hone) as Hspared.
  rewrite Hmax in Hspared.
  destruct (cv2_minMaxLoc_Ok _ _ _ _ Hspared) as (mn' & mx' & mnl' & mxl' & Hmm').
  simpl fst; simpl snd.
  apply (IH _ _ mn' mx' mnl' mxl' Hmm').
  destruct (cv2_minMaxLoc_max _ _ _ _ _ Hmm') as (j' & i' & _ & Hmax' & Hupper').
  apply andb_true_iff in Hacc as [Hlt Habove].
  apply Qltb_lt in Hlt, Habove. apply Qltb_ge in Hs.
  assert (mx <= mx')%Q as Hle by (eapply Hupper'; exact Hspared).
  assert (mx' <= mx)%Q as Hge.
  { destruct (cell_suppress_cases res (Z.of_nat i, Z.of_nat j) (width, height) j' i')
      as [E|E]; rewrite Hmax' in E.
    - eapply Hupper. symmetry. exact E.
    - inversion E; subst. apply Qlt_le_weak. eapply Qle_lt_trans; eassumption. }
  apply andb_true_iff. split; apply Qltb_lt.
  - eapply Qle_lt_trans; eassumption.
  - eapply Qlt_le_trans; eassumption.
Qed.

(** The only exception the loop can raise is the one [cv2.minMaxLoc] raises
    on an empty surface. *)
Lemma extract_matches_raises (fuel : nat) (pattern : Pattern) (threshold : Q)
    (res : Surface) (acc : list Location) (e : exn) :
  extract_matches fuel pattern threshold res acc = Some (Raise e) -> e = cv2_error.
Proof.
  revert res acc. induction fuel as [|fuel IH]; intros res acc; [discriminate|].
  simpl. unfold cv2_minMaxLoc. destruct (ndenumerate res) as [|c cells].
  - intros H; inversion H; reflexivity.
  - destruct (_ && _); [apply IH|discriminate].
Qed.

(** ** What a search does to the world *)

(** [match_template] always returns or raises; it makes one capture and
    reads no clock. *)
Lemma match_template_runs (env : Env) (pattern : Pattern) (region : option Rectangle)
    (w : World) :
  exists r w',
    match_template env pattern region w = Some (r, w') /\
    shots w' = S (shots w) /\ ticks w' = ticks w.
Proof.
  run. repeat (case_scrutinee; simpl in * ); eauto.
Qed.

(** The outcome of [match_template] depends on the world only through the
    number of captures made so far. *)
Lemma match_template_outcome (env : Env) (pattern : Pattern) (region : option Rectangle)
    (w1 w2 : World) (r : result Location) (w1' : World) :
  shots w1 = shots w2 ->
  match_template env pattern region w1 = Some (r, w1') ->
  exists w2', match_template env pattern region w2 = Some (r, w2').
Proof.
  intros Hshots. run. rewrite <- Hshots.
  repeat (case_scrutinee; simpl in * ); intros H; inversion H; subst; eauto.
Qed.

(** ** Capture failure *)

(** C9.  When the capture raises [ScreenshotError], [match_template] returns
    the sentinel [Location(-1, -1)] and [match_template_multiple] returns the
    empty list; neither raises, neither reaches the engine, and the last
    thing each does is log the warning "Screenshot failed.". *)
Theorem capture_failure_is_masked (env : Env) (pattern : Pattern)
    (region : option Rectangle) (threshold : Q) (fuel : nat) (w : World) :
  screenshot env (shots w) region = Raise ScreenshotError ->
  (exists w',
     match_template env pattern region w = Some (Ok (mkLocation (-1) (-1)), w') /\
     records w' = records w ++ [debug_searching (get_filename pattern);
                                warning_screenshot_failed] /\
     engine_calls w' = engine_calls w) /\
  (exists w',
     match_template_multiple fuel env pattern region threshold w = Some (Ok [], w') /\
     records w' = records w ++ [debug_searching (get_filename pattern);
                                warning_screenshot_failed] /\
     engine_calls w' = engine_calls w).
Proof.
  intros Hshot. split; run; rewrite Hshot; simpl.
  all: eexists; split; [reflexivity|]; simpl.
  all: rewrite <- app_assoc; split; reflexivity.
Qed.

(** ** Channel depth *)

(** C8.  Once the capture succeeds, each search sends exactly one pair of
    arrays to the engine: the colour arrays of screenshot and pattern when
    the pattern's similarity equals 0.99, the grayscale arrays for every
    other similarity.  [match_template_multiple] then runs its loop on the
    surface the engine returns for that pair. *)
Theorem channel_depth_is_bimodal (env : Env) (pattern : Pattern)
    (region : option Rectangle) (threshold : Q) (fuel : nat) (w : World)
    (img : ScreenshotImage) :
  screenshot env (shots w) region = Ok img ->
  exists single multi : ndarray * ndarray,
    ((similarity pattern == EXACT_PRECISION)%Q ->
       single = (np_array (stack_color_image img), np_array (get_color_image pattern)) /\
       multi = (stack_rgb_array img, get_rgb_array pattern)) /\
    (~ (similarity pattern == EXACT_PRECISION)%Q ->
       single = (np_array (stack_gray_image img), np_array (get_gray_image pattern)) /\
       multi = (stack_gray_array img, get_gray_array pattern)) /\
    (exists r w',
       match_template env pattern region w = Some (r, w') /\
       engine_calls w' = engine_calls w ++ [single]) /\
    (exists w',
       engine_calls w' = engine_calls w ++ [multi] /\
       match_template_multiple fuel env pattern region threshold w =
         match cv2_matchTemplate env (fst multi) (snd multi) with
         | Ok res =>
             match extract_matches fuel pattern threshold res [] with
             | Some r => Some (r, w')
             | None => None
             end
         | Raise e =>
             if exn_eqb e ScreenshotError
             then Some (Ok [], log_append warning_screenshot_failed w')
             else Some (Raise e, w')
         end).
Proof.
  intros Hshot.
  exists (single_match_arrays pattern img (Qeq_bool (similarity pattern) EXACT_PRECISION)),
         (multi_match_arrays pattern img (Qeq_bool (similarity pattern) EXACT_PRECISION)).
  unfold single_match_arrays, multi_match_arrays.
  split; [|split; [|split]].
  - intros Heq. apply Qeq_bool_iff in Heq. rewrite Heq. split; reflexivity.
  - intros Hne. destruct (Qeq_bool (similarity pattern) EXACT_PRECISION) eqn:E.
    + apply Qeq_bool_iff in E. contradiction.
    + split; reflexivity.
  - run. rewrite Hshot. simpl.
    destruct (Qeq_bool (similarity pattern) EXACT_PRECISION); simpl.
    all: repeat (case_scrutinee; simpl in * ); eauto.
  - run. rewrite Hshot. simpl.
    destruct (Qeq_bool (similarity pattern) EXACT_PRECISION); simpl;
      match goal with
      | |- context [cv2_matchTemplate _ ?h ?n] =>
          exists (mkWorld (S (shots w)) (ticks w) (engine_calls w ++ [(h, n)])
                    (records w ++ [debug_searching (get_filename pattern)]))
      end;
      (split; [reflexivity|]);
      repeat (case_scrutinee; simpl in * ); try reflexivity;
      match goal with
      | H : extract_matches _ _ _ _ _ = Some (Raise _) |- _ =>
          apply extract_matches_raises in H; subst; discriminate
      end.
Qed.

(** ** Single-match search *)

(** Where a found match comes from: a successful capture, one engine call on
    the arrays of the selected depth, and a maximum at or above the
    pattern's similarity whose cell, moved by the region's origin, is the
    returned point. *)
Lemma match_template_found (env : Env) (pattern : Pattern) (region : option Rectangle)
    (w : World) (pt : Location) (w' : World) :
  match_template env pattern region w = Some (Ok pt, w') ->
  pt <> mkLocation (-1) (-1) ->
  exists (img : ScreenshotImage) (res : Surface) (min_val max_val : Q)
         (min_loc : Z * Z) (j i : nat),
    let args := single_match_arrays pattern img
                  (Qeq_bool (similarity pattern) EXACT_PRECISION) in
    screenshot env (shots w) region = Ok img /\
    engine_calls w' = engine_calls w ++ [args] /\
    cv2_matchTemplate env (fst args) (snd args) = Ok res /\
    cv2_minMaxLoc res = Ok (min_val, max_val, min_loc, (Z.of_nat i, Z.of_nat j)) /\
    cell res j i = Some max_val /\
    (similarity pattern <= max_val)%Q /\
    pt = match region with
         | Some r => mkLocation (Z.of_nat i + rect_x r) (Z.of_nat j + rect_y r)
         | None => mkLocation (Z.of_nat i) (Z.of_nat j)
         end.
Proof.
  intros H Hpt. run.
  destruct (screenshot env (shots w) region) as [img|e] eqn:Hshot; simpl in H.
  2: { destruct (exn_eqb e ScreenshotError); simpl in H; inversion H; subst; contradiction. }
  exists img. unfold single_match_arrays.
  destruct (Qeq_bool (similarity pattern) EXACT_PRECISION); simpl in *.
  all: match type of H with
       | context [cv2_matchTemplate ?en ?h ?n] =>
           destruct (cv2_matchTemplate en h n) as [res|e] eqn:Heng; simpl in H
       end.
  all: try (destruct (exn_eqb e ScreenshotError); simpl in H; inversion H; subst;
            contradiction).
  all: destruct (cv2_minMaxLoc res) as [[[[mn mx] mnl] mxl]|e] eqn:Hmm; simpl in H.
  all: try (destruct (exn_eqb e ScreenshotError); simpl in H; inversion H; subst;
            contradiction).
  all: destruct (cv2_minMaxLoc_max _ _ _ _ _ Hmm) as (j & i & -> & Hcell & _).
  all: destruct (Qltb mx (similarity pattern)) eqn:Hlt; simpl in H;
         [inversion H; subst; contradiction|].
  all: apply Qltb_ge in Hlt.
  all: replace ((Z.of_nat i =? -1) || (Z.of_nat j =? -1)) with false in H
         by (symmetry; apply orb_false_iff; split; apply Z.eqb_neq; lia).
  all: exists res, mn, mx, mnl, j, i.
  all: destruct region as [r|]; inversion H; subst; simpl; repeat split; assumption.
Qed.

(** C5 as stated fails for a pattern larger than the region, which
    [match_template] itself does not refuse (the size guard is in the
    wrappers): for the 4x4 poster and the 2x2 region at (100, 50) the
    surface has 3x3 cells, its maximum is at (2, 2), and the returned point
    (102, 52) is not the sentinel and lies outside the region. *)
Lemma match_template_leaves_a_small_region :
  get_size (poster (9 # 10)) = (4, 4) /\
  (rect_width small_region, rect_height small_region) = (2, 2) /\
  cv2_minMaxLoc poster_surface = Ok ((0 # 1)%Q, (1 # 1)%Q, (0, 0), (2, 2)) /\
  (fst <$> match_template exchanging_env (poster (9 # 10)) (Some small_region)
             fresh_world) = Some (Ok (mkLocation 102 52)) /\
  mkLocation 102 52 <> mkLocation (-1) (-1) /\
  ~ (rect_x small_region <= 102 < rect_x small_region + rect_width small_region) /\
  ~ (rect_y small_region <= 52 < rect_y small_region + rect_height small_region).
Proof.
  repeat split; try reflexivity; try discriminate; simpl; lia.
Qed.

(** C5, amended.  A point other than the sentinel comes from a search whose
    global maximum was at or above the pattern's similarity; with a region
    it is the engine's max-location moved by the region's origin, and it
    lies inside the region when the capture has the region's size and the
    surface has one cell per placement of the needle in it, as it has for
    a pattern that fits the region. *)
Theorem match_template_result_is_sound (env : Env) (pattern : Pattern)
    (region : option Rectangle) (w : World) (pt : Location) (w' : World) :
  match_template env pattern region w = Some (Ok pt, w') ->
  pt <> mkLocation (-1) (-1) ->
  exists (haystack needle : ndarray) (res : Surface) (min_val max_val : Q)
         (min_loc max_loc : Z * Z),
    engine_calls w' = engine_calls w ++ [(haystack, needle)] /\
    cv2_matchTemplate env haystack needle = Ok res /\
    cv2_minMaxLoc res = Ok (min_val, max_val, min_loc, max_loc) /\
    (similarity pattern <= max_val)%Q /\
    forall r, region = Some r ->
      pt = mkLocation (fst max_loc + rect_x r) (snd max_loc + rect_y r) /\
      forall h wd,
        ndarray_shape haystack (rect_height r) (rect_width r) ->
        ndarray_shape needle h wd -> 1 <= h -> 1 <= wd ->
        ndarray_shape res (rect_height r - h + 1) (rect_width r - wd + 1) ->
        rect_x r <= loc_x pt < rect_x r + rect_width r /\
        rect_y r <= loc_y pt < rect_y r + rect_height r.
Proof.
  intros H Hpt.
  destruct (match_template_found _ _ _ _ _ _ H Hpt)
    as (img & res & mn & mx & mnl & j & i & _ & Hcalls & Heng & Hmm & Hcell & Hle & Hloc).
  destruct (single_match_arrays pattern img _) as [haystack needle]; simpl in *.
  exists haystack, needle, res, mn, mx, mnl, (Z.of_nat i, Z.of_nat j).
  do 4 (split; [assumption|]).
  intros r ->. split; [assumption|].
  intros h wd _ _ Hh Hwd [Hrows Hcols]. subst pt. simpl.
  unfold cell in Hcell. destruct (res !! j) as [row|] eqn:Hrow; [|discriminate].
  pose proof (lookup_lt_Some _ _ _ Hrow) as Hj.
  pose proof (lookup_lt_Some _ _ _ Hcell) as Hi.
  rewrite Forall_forall in Hcols.
  specialize (Hcols row ltac:(eapply list_elem_of_lookup_2; eassumption)).
  lia.
Qed.

(** ** Multi-match search *)

Lemma shape_suppress (res : Surface) (top_left size : Z * Z) :
  shape (suppress res top_left size) = shape res.
Proof. rewrite suppress_window. apply shape_suppress_cells. Qed.

(** The loop only appends, and what it appends are cells of the surface. *)
Lemma extract_matches_in_surface (fuel : nat) (pattern : Pattern) (threshold : Q) :
  forall (res : Surface) (acc out : list Location),
    extract_matches fuel pattern threshold res acc = Some (Ok out) ->
    exists found, out = acc ++ found /\ Forall (in_surface (shape res)) found.
Proof.
  induction fuel as [|fuel IH]; intros res acc out H; [discriminate|].
  destruct (cv2_minMaxLoc res) as [[[[mn mx] mnl] mxl]|e] eqn:Hmm.
  2: { simpl in H. rewrite Hmm in H. discriminate. }
  rewrite (extract_matches_step _ _ _ _ _ _ _ _ _ Hmm) in H.
  destruct (Qltb mx (similarity pattern) && Qltb threshold mx).
  - apply IH in H as (found & -> & Hfound). rewrite shape_suppress in Hfound.
    exists (mkLocation (fst mxl) (snd mxl) :: found).
    split; [rewrite <- app_assoc; reflexivity|].
    constructor; [|assumption].
    destruct (cv2_minMaxLoc_max _ _ _ _ _ Hmm) as (j & i & -> & Hcell & _).
    destruct (proj1 (cell_shape res j i) ltac:(eauto)) as (n & Hn & Hi).
    exists j, i, n. repeat split; assumption.
  - inversion H; subst. exists []. split; [rewrite app_nil_r; reflexivity|constructor].
Qed.

Lemma in_surface_getitem2 (res : Surface) (loc : Location) :
  in_surface (shape res) loc ->
  0 <= loc_x loc /\ 0 <= loc_y loc /\
  exists v, getitem2 res (loc_y loc) (loc_x loc) = Some v /\
            cell res (Z.to_nat (loc_y loc)) (Z.to_nat (loc_x loc)) = Some v.
Proof.
  intros (j & i & n & -> & Hn & Hi). simpl.
  destruct (proj2 (cell_shape res j i) ltac:(eauto)) as [v Hv].
  repeat split; try lia. exists v.
  rewrite (getitem2_cell res j i v Hv), !Nat2Z.id. split; assumption.
Qed.

(** What [match_template_multiple] returns is what its loop extracts from
    the engine's surface, unless the capture failed. *)
Lemma match_template_multiple_found (fuel : nat) (env : Env) (pattern : Pattern)
    (region : option Rectangle) (threshold : Q) (w : World)
    (out : list Location) (w' : World) :
  match_template_multiple fuel env pattern region threshold w = Some (Ok out, w') ->
  out = [] \/
  exists (haystack needle : ndarray) (res : Surface),
    engine_calls w' = engine_calls w ++ [(haystack, needle)] /\
    cv2_matchTemplate env haystack needle = Ok res /\
    extract_matches fuel pattern threshold res [] = Some (Ok out).
Proof.
  intros H. run.
  destruct (screenshot env (shots w) region) as [img|e] eqn:Hshot; simpl in H.
  2: { destruct (exn_eqb e ScreenshotError); simpl in H; inversion H; subst.
       left; reflexivity. }
  match type of H with
  | context [cv2_matchTemplate ?en ?h ?n] =>
      destruct (cv2_matchTemplate en h n) as [res|e] eqn:Heng; simpl in H;
      [|destruct (exn_eqb e ScreenshotError); simpl in H; inversion H; subst;
        left; reflexivity];
      destruct (extract_matches fuel pattern threshold res []) as [[found|e]|] eqn:Hloop;
        simpl in H;
      [|destruct (exn_eqb e ScreenshotError); simpl in H; inversion H; subst;
        left; reflexivity|discriminate];
      right; exists h, n, res
  end.
  inversion H; subst. simpl. repeat split; assumption.
Qed.

(** C6.  Every location [match_template_multiple] returns is the [(x, y)]
    index of a cell of the score surface, exactly as the loop recorded it:
    the region's origin is not added, whereas a point found by
    [match_template] in a region is the max-location plus that origin. *)
Theorem multi_match_locations_are_surface_local (fuel : nat) (env : Env)
    (pattern : Pattern) (region : option Rectangle) (threshold : Q) (w : World) :
  (forall (out : list Location) (w' : World) (loc : Location),
     match_template_multiple fuel env pattern region threshold w = Some (Ok out, w') ->
     loc ∈ out ->
     exists (haystack needle : ndarray) (res : Surface) (v : Q),
       engine_calls w' = engine_calls w ++ [(haystack, needle)] /\
       cv2_matchTemplate env haystack needle = Ok res /\
       extract_matches fuel pattern threshold res [] = Some (Ok out) /\
       0 <= loc_x loc /\ 0 <= loc_y loc /\
       getitem2 res (loc_y loc) (loc_x loc) = Some v) /\
  (forall (r : Rectangle) (pt : Location) (w' : World),
     region = Some r ->
     match_template env pattern region w = Some (Ok pt, w') ->
     pt <> mkLocation (-1) (-1) ->
     exists (res : Surface) (min_val max_val : Q) (min_loc max_loc : Z * Z),
       cv2_minMaxLoc res = Ok (min_val, max_val, min_loc, max_loc) /\
       pt = mkLocation (fst max_loc + rect_x r) (snd max_loc + rect_y r)).
Proof.
  split.
  - intros out w' loc H Hin.
    destruct (match_template_multiple_found _ _ _ _ _ _ _ _ H)
      as [->|(haystack & needle & res & Hcalls & Heng & Hloop)]; [inversion Hin|].
    destruct (extract_matches_in_surface _ _ _ _ _ _ Hloop) as (found & -> & Hfound).
    rewrite Forall_forall in Hfound. simpl in Hin.
    destruct (in_surface_getitem2 res loc (Hfound loc Hin)) as (Hx & Hy & v & Hv & _).
    exists haystack, needle, res, v. repeat split; assumption.
  - intros r pt w' -> H Hpt.
    destruct (match_template_found _ _ _ _ _ _ H Hpt)
      as (img & res & mn & mx & mnl & j & i & _ & _ & _ & Hmm & _ & _ & Hloc).
    exists res, mn, mx, mnl, (Z.of_nat i, Z.of_nat j). split; assumption.
Qed.

(** ** The stop condition of the extraction loop *)

(** C3.  At each iteration a location is recorded exactly when the current
    global maximum lies strictly between the overlap threshold and the
    pattern's similarity: then the loop goes on with the max-location
    appended, otherwise it stops and returns what it has.  Hence every
    location in the result indexes a cell whose score on the engine's
    surface is below the similarity: a match at or above it is never
    reported. *)
Theorem extraction_records_strictly_between (pattern : Pattern) (threshold : Q)
    (res : Surface) (min_val max_val : Q) (min_loc max_loc : Z * Z) :
  cv2_minMaxLoc res = Ok (min_val, max_val, min_loc, max_loc) ->
  (forall fuel acc,
     (threshold < max_val)%Q /\ (max_val < similarity pattern)%Q ->
     extract_matches (S fuel) pattern threshold res acc =
       extract_matches fuel pattern threshold
         (suppress res max_loc (get_size pattern))
         (acc ++ [mkLocation (fst max_loc) (snd max_loc)])) /\
  (forall fuel acc,
     (max_val <= threshold)%Q \/ (similarity pattern <= max_val)%Q ->
     extract_matches (S fuel) pattern threshold res acc = Some (Ok acc)) /\
  (forall fuel out loc,
     extract_matches fuel pattern threshold res [] = Some (Ok out) ->
     loc ∈ out ->
     exists v, getitem2 res (loc_y loc) (loc_x loc) = Some v /\
               (v < similarity pattern)%Q).
Proof.
  intros Hmm. split; [|split].
  - intros fuel acc [Habove Hbelow].
    rewrite (extract_matches_step _ _ _ _ _ _ _ _ _ Hmm).
    apply Qltb_lt in Habove, Hbelow. rewrite Habove, Hbelow. reflexivity.
  - intros fuel acc Hout.
    rewrite (extract_matches_step _ _ _ _ _ _ _ _ _ Hmm).
    destruct (Qltb max_val (similarity pattern) && Qltb threshold max_val) eqn:E;
      [|reflexivity].
    apply andb_true_iff in E as [Hbelow Habove].
    apply Qltb_lt in Habove, Hbelow. exfalso.
    destruct Hout as [Hle|Hle];
      [exact (Qlt_not_le _ _ Habove Hle)|exact (Qlt_not_le _ _ Hbelow Hle)].
  - intros fuel out loc Hloop Hin.
    destruct (extract_matches_in_surface _ _ _ _ _ _ Hloop) as (found & -> & Hfound).
    rewrite Forall_forall in Hfound. simpl in Hin.
    destruct (in_surface_getitem2 res loc (Hfound loc Hin)) as (_ & _ & v & Hv & Hcell).
    exists v. split; [assumption|].
    destruct fuel as [|fuel]; [discriminate|].
    rewrite (extract_matches_step _ _ _ _ _ _ _ _ _ Hmm) in Hloop.
    destruct (Qltb max_val (similarity pattern) && Qltb threshold max_val) eqn:E.
    + apply andb_true_iff in E as [Hbelow _]. apply Qltb_lt in Hbelow.
      destruct (cv2_minMaxLoc_max _ _ _ _ _ Hmm) as (_ & _ & _ & _ & Hupper).
      eapply Qle_lt_trans; [eapply Hupper; exact Hcell|assumption].
    + inversion Hloop; subst. inversion Hin.
Qed.

(** What a suppression step does when no subscript of its window is
    negative: the cells of the surface inside the window are overwritten,
    all others keep their score. *)
Lemma suppress_without_negative_subscripts (res : Surface) (sx sy width height : Z)
    (j i : nat) (v : Q) :
  0 <= int_minus_half sx width -> 0 <= int_minus_half sy height ->
  cell res j i = Some v ->
  cell (suppress res (sx, sy) (width, height)) j i =
    Some (if (int_minus_half sx width <=? Z.of_nat i)
             && (Z.of_nat i <? int_plus_half sx width)
             && (int_minus_half sy height <=? Z.of_nat j)
             && (Z.of_nat j <? int_plus_half sy height)
          then SUPPRESSED else v).
Proof.
  intros Hx0 Hy0 Hv. rewrite suppress_window.
  destruct (_ && _) eqn:E.
  - repeat (apply andb_true_iff in E as [E ?]).
    apply (cell_suppress_cells_hit res _ (Z.of_nat j, Z.of_nat i)).
    + apply elem_of_window. lia.
    + simpl. unfold cell in Hv. destruct (res !! j) as [row|] eqn:Hrow; [|discriminate].
      rewrite (resolve_in_bounds res _ _ row); rewrite ?Nat2Z.id; try assumption; try lia.
      * reflexivity.
      * apply lookup_lt_Some in Hv. lia.
  - rewrite <- Hv. apply cell_suppress_cells_miss.
    intros [y x] Hin Hres. apply elem_of_window in Hin as [Hx Hy]. simpl in Hres.
    apply resolve_inv in Hres as (n & Hj & _ & Hi).
    apply py_index_nonneg_inv in Hj as [-> _]; [|lia].
    apply py_index_nonneg_inv in Hi as [-> _]; [|lia].
    rewrite !Z2Nat.id in E by lia.
    assert ((int_minus_half sx width <=? x) && (x <? int_plus_half sx width)
            && (int_minus_half sy height <=? y) && (y <? int_plus_half sy height) = true)
      as E' by (repeat (apply andb_true_iff; split); lia).
    congruence.
Qed.

(** ** Suppression *)

(** C4, on the surface [corner_surface] with a 2x2 pattern: the maximum is at
    [(0, 0)], the window's subscripts are -1 and 0 in both directions, and
    the step overwrites not only cell [(0, 0)] but also the three cells that
    the subscript -1 denotes in NumPy (last row, last column): cells
    outside the window do not keep their score. *)
Theorem suppression_wraps_around_the_edges :
  cv2_minMaxLoc corner_surface = Ok ((6 # 10)%Q, (7 # 10)%Q, (1, 0), (0, 0)) /\
  window (0, 0) (get_size (icon (8 # 10))) = [(-1, -1); (0, -1); (-1, 0); (0, 0)] /\
  suppress corner_surface (0, 0) (get_size (icon (8 # 10))) =
    [[SUPPRESSED; 6 # 10; SUPPRESSED];
     [6 # 10; 6 # 10; 6 # 10];
     [SUPPRESSED; 6 # 10; SUPPRESSED]]%Q /\
  getitem2 corner_surface 2 2 = Some (6 # 10)%Q /\
  getitem2 (suppress corner_surface (0, 0) (get_size (icon (8 # 10)))) 2 2
    = Some SUPPRESSED.
Proof. repeat split; reflexivity. Qed.

(** ** Termination of the extraction loop *)

(** C10 as stated fails for thin patterns: with a pattern one pixel wide
    and the maximum in column 1, the window is not empty and the step
    overwrites the cell to the left of the maximum. *)
Lemma thin_pattern_window_is_not_empty :
  cv2_minMaxLoc strip_surface = Ok ((6 # 10)%Q, (7 # 10)%Q, (0, 0), (1, 0)) /\
  window (1, 0) (get_size (sliver (8 # 10))) = [(-1, 0); (0, 0)] /\
  suppress strip_surface (1, 0) (get_size (sliver (8 # 10)))
    = [[SUPPRESSED; 7 # 10]]%Q /\
  ~ (forall top_left size : Z * Z,
       0 <= fst top_left -> 0 <= snd top_left ->
       fst size = 1 \/ snd size = 1 -> window top_left size = []).
Proof.
  repeat split; try reflexivity.
  intros H. specialize (H (1, 0) (1, 2) ltac:(simpl; lia) ltac:(simpl; lia)
                          ltac:(left; reflexivity)).
  discriminate.
Qed.

(** C10, amended.  With an overlap threshold above the suppression score:
    if both sides of the pattern are at least 2, the loop returns within
    one iteration per cell above the threshold plus one, because an
    accepting iteration's window contains the cell of the maximum and
    leaves it suppressed, with fewer cells above the threshold than
    before; if a side is 1, the window misses the cell of the maximum,
    which keeps its score, and once an iteration accepts no amount of fuel
    ends the loop. *)
Theorem extraction_loop_termination (pattern : Pattern) (threshold : Q)
    (res : Surface) (min_val max_val : Q) (min_loc max_loc : Z * Z) :
  (SUPPRESSED < threshold)%Q ->
  cv2_minMaxLoc res = Ok (min_val, max_val, min_loc, max_loc) ->
  (2 <= fst (get_size pattern) -> 2 <= snd (get_size pattern) ->
     (exists out,
        extract_matches (S (live threshold res)) pattern threshold res [] = Some (Ok out)) /\
     ((threshold < max_val)%Q ->
        (snd max_loc, fst max_loc) ∈ window max_loc (get_size pattern) /\
        getitem2 (suppress res max_loc (get_size pattern)) (snd max_loc) (fst max_loc)
          = Some SUPPRESSED /\
        (live threshold (suppress res max_loc (get_size pattern))
         < live threshold res)%nat)) /\
  (fst (get_size pattern) = 1 \/ snd (get_size pattern) = 1 ->
     getitem2 (suppress res max_loc (get_size pattern)) (snd max_loc) (fst max_loc)
       = Some max_val /\
     ((threshold < max_val)%Q -> (max_val < similarity pattern)%Q ->
        forall fuel acc, extract_matches fuel pattern threshold res acc = None)).
Proof.
  intros Hthr Hmm.
  assert (Qltb threshold SUPPRESSED = false) as Hs
    by (apply Qltb_ge, Qlt_le_weak, Hthr).
  destruct (cv2_minMaxLoc_max _ _ _ _ _ Hmm) as (j & i & -> & Hmax & _).
  destruct (get_size pattern) as [width height] eqn:Hsize. cbn [fst snd].
  split.
  - intros Hw Hh. split.
    + apply (extract_matches_enough_fuel pattern threshold _
               ltac:(rewrite Hsize; exact Hw) ltac:(rewrite Hsize; exact Hh) Hs
               res [] j i max_val); [lia|assumption].
    + intros Habove. apply Qltb_lt in Habove.
      destruct (suppress_erases_max res width height j i max_val Hw Hh Hmax)
        as (Hin & Hres & Herased).
      split; [assumption|]. split.
      * rewrite (getitem2_cell _ j i SUPPRESSED Herased). assumption.
      * rewrite suppress_window.
        exact (live_suppress_cells_lt threshold res _ _ j i max_val Hs Hin Hres Hmax Habove).
  - intros Hone.
    pose proof (suppress_spares_max res width height j i Hone) as Hspared.
    rewrite Hmax in Hspared. split.
    + rewrite (getitem2_cell _ j i max_val Hspared). assumption.
    + intros Habove Hbelow fuel acc.
      apply (extract_matches_diverges pattern threshold
               ltac:(rewrite Hsize; exact Hone) Hs fuel res acc _ _ _ _ Hmm).
      apply andb_true_iff. split; apply Qltb_lt; assumption.
Qed.

(** ** The size guard *)

(** With a region, the guard answers whether the pattern fits, logs one
    warning per failing dimension, and touches nothing else. *)
Lemma is_pattern_size_correct_with_region (pattern : Pattern) (r : Rectangle) (w : World) :
  exists w',
    is_pattern_size_correct pattern (Some r) w =
      Some (Ok ((fst (get_size pattern) <=? rect_width r)
                && (snd (get_size pattern) <=? rect_height r)), w') /\
    shots w' = shots w /\ ticks w' = ticks w /\ engine_calls w' = engine_calls w /\
    records w' =
      records w
      ++ (if fst (get_size pattern) >? rect_width r
          then [warning_width (fst (get_size pattern)) (rect_width r)] else [])
      ++ (if snd (get_size pattern) >? rect_height r
          then [warning_height (snd (get_size pattern)) (rect_height r)] else []).
Proof.
  run. destruct (get_size pattern) as [p_width p_height]. simpl.
  rewrite !Z.gtb_ltb, !Z.leb_antisym.
  destruct (rect_width r <? p_width), (rect_height r <? p_height); simpl.
  all: eexists; split; [reflexivity|]; simpl.
  all: rewrite ?app_nil_r, <- ?app_assoc; repeat split; reflexivity.
Qed.

(** The guard is true exactly when both dimensions fit. *)
Lemma is_pattern_size_correct_iff (pattern : Pattern) (r : Rectangle) (w : World)
    (b : bool) (w' : World) :
  is_pattern_size_correct pattern (Some r) w = Some (Ok b, w') ->
  (b = true <-> fst (get_size pattern) <= rect_width r /\
                snd (get_size pattern) <= rect_height r).
Proof.
  destruct (is_pattern_size_correct_with_region pattern r w) as (w1 & H & _).
  rewrite H. intros E; inversion E; subst.
  rewrite andb_true_iff, !Z.leb_le. reflexivity.
Qed.

(** When the pattern does not fit the region, [image_find] returns [None]
    without a capture, an engine call or a clock reading. *)
Lemma image_find_guard_short_circuit (fuel : nat) (env : Env) (pattern : Pattern)
    (timeout : option Z) (r : Rectangle) (w : World) :
  fst (get_size pattern) > rect_width r \/ snd (get_size pattern) > rect_height r ->
  exists w',
    image_find fuel env pattern timeout (Some r) w = Some (Ok None, w') /\
    shots w' = shots w /\ ticks w' = ticks w /\ engine_calls w' = engine_calls w.
Proof.
  intros Hbig.
  destruct (is_pattern_size_correct_with_region pattern r w) as (w1 & H & Hs & Ht & He & _).
  unfold image_find, bind. rewrite H.
  replace ((fst (get_size pattern) <=? rect_width r)
           && (snd (get_size pattern) <=? rect_height r)) with false.
  - simpl. exists w1. repeat split; assumption.
  - symmetry. apply andb_false_iff. rewrite !Z.leb_gt. lia.
Qed.

(** Without a region the guard raises at its first attribute access. *)
Lemma is_pattern_size_correct_None (pattern : Pattern) (w : World) :
  is_pattern_size_correct pattern None w = Some (Raise AttributeError, w).
Proof. unfold is_pattern_size_correct. destruct (get_size pattern). reflexivity. Qed.

(** C7, at an omitted region: the guard reads [region.width] of [None] and
    raises [AttributeError] instead of comparing against the full screen,
    and [image_find] raises with it instead of returning a result. *)
Theorem guard_raises_without_region (fuel : nat) (env : Env) (pattern : Pattern)
    (timeout : option Z) (w : World) :
  is_pattern_size_correct pattern None w = Some (Raise AttributeError, w) /\
  image_find fuel env pattern timeout None w = Some (Raise AttributeError, w).
Proof.
  split; [apply is_pattern_size_correct_None|].
  unfold image_find, bind. rewrite is_pattern_size_correct_None. reflexivity.
Qed.

(** ** The polling wrappers *)

(** C2, at its two omitted arguments: without a region [image_find] and
    [image_vanish] raise [AttributeError] whatever the timeout; with a
    region the pattern fits but without a timeout, [image_vanish] raises
    [TypeError] from [datetime.timedelta(seconds=None)], where [image_find]
    substitutes [Settings.auto_wait_timeout]. *)
Theorem entry_points_raise_on_omitted_arguments (fuel : nat) (env : Env)
    (pattern : Pattern) (timeout : option Z) (r : Rectangle) (w : World) :
  image_find fuel env pattern timeout None w = Some (Raise AttributeError, w) /\
  image_vanish fuel env pattern timeout None w = Some (Raise AttributeError, w) /\
  exists w',
    image_vanish fuel env pattern None (Some r) w =
      Some (if (fst (get_size pattern) <=? rect_width r)
               && (snd (get_size pattern) <=? rect_height r)
            then Raise TypeError else Ok None, w').
Proof.
  split; [|split].
  - unfold image_find, bind. rewrite is_pattern_size_correct_None. reflexivity.
  - unfold image_vanish, bind. rewrite is_pattern_size_correct_None. reflexivity.
  - destruct (is_pattern_size_correct_with_region pattern r w) as (w1 & H & _).
    unfold image_vanish, bind. rewrite H.
    destruct (_ && _); simpl; eexists; reflexivity.
Qed.

(** The loop of [image_vanish] while every attempt finds the pattern: after
    [k] iterations the world has made [k] more captures and clock readings
    and the loop variable [start_time] is the clock's [k]-th reading; the
    loop leaves with [pattern_found] still true at the first reading that
    reaches the deadline. *)
Lemma image_vanish_loop_still_present (env : Env) (pattern : Pattern) (r : Rectangle)
    (end_time : Z) (shots0 ticks0 n : nat) :
  (forall k, (k < n)%nat -> datetime_now env (ticks0 + k) < end_time) ->
  end_time <= datetime_now env (ticks0 + n) ->
  (forall k wk, (k < n)%nat -> shots wk = (shots0 + k)%nat ->
     exists pt wk',
       match_template env pattern (Some r) wk = Some (Ok pt, wk') /\
       loc_x pt <> -1 /\ loc_y pt <> -1) ->
  forall (m k fuel : nat) (wk : World),
    (k + m = n)%nat -> (m <= fuel)%nat ->
    shots wk = (shots0 + k)%nat -> ticks wk = (ticks0 + 1 + k)%nat ->
    exists w',
      image_vanish_loop fuel env pattern (Some r) true
        (datetime_now env (ticks0 + k)) end_time wk = Some (Ok true, w') /\
      shots w' = (shots0 + n)%nat /\ ticks w' = (ticks0 + 1 + n)%nat.
Proof.
  intros Hearly Hlate Hfound. induction m as [|m IH]; intros k fuel wk Hk Hfuel Hs Ht.
  - replace k with n in * by lia.
    exists wk. destruct fuel; simpl.
    all: replace (datetime_now env (ticks0 + n) <? end_time) with false
           by (symmetry; apply Z.ltb_ge; assumption).
    all: repeat split; assumption.
  - destruct fuel as [|fuel]; [lia|]. simpl.
    replace (datetime_now env (ticks0 + k) <? end_time) with true
      by (symmetry; apply Z.ltb_lt, Hearly; lia).
    destruct (Hfound k wk ltac:(lia) Hs) as (pt & wk' & Hmt & Hx & Hy).
    destruct (match_template_runs env pattern (Some r) wk) as (r0 & w0 & Hrun & Hs' & Ht').
    rewrite Hmt in Hrun. inversion Hrun; subst r0 w0; clear Hrun.
    unfold bind at 1. rewrite Hmt.
    replace (negb (loc_x pt =? -1) && negb (loc_y pt =? -1)) with true
      by (symmetry; apply andb_true_iff; split; apply negb_true_iff, Z.eqb_neq; assumption).
    unfold bind, now. simpl.
    rewrite Ht', Ht. replace (ticks0 + 1 + k)%nat with (ticks0 + S k)%nat by lia.
    apply IH; simpl; lia.
Qed.

(** [image_vanish] with a timeout, step by step. *)
Lemma image_vanish_unfold (fuel : nat) (env : Env) (pattern : Pattern) (timeout : Z)
    (region : option Rectangle) (w : World) :
  image_vanish fuel env pattern (Some timeout) region w =
    match is_pattern_size_correct pattern region w with
    | Some (Ok true, w1) =>
        match image_vanish_loop fuel env pattern region true
                (datetime_now env (ticks w1))
                (datetime_now env (ticks w1) + timeout)
                (mkWorld (shots w1) (S (ticks w1)) (engine_calls w1) (records w1)) with
        | Some (Ok pattern_found, w2) =>
            Some (Ok (if pattern_found then None else Some true), w2)
        | Some (Raise e, w2) => Some (Raise e, w2)
        | None => None
        end
    | Some (Ok false, w1) => Some (Ok None, w1)
    | Some (Raise e, w1) => Some (Raise e, w1)
    | None => None
    end.
Proof.
  unfold image_vanish, bind, now, timedelta, ret.
  destruct (is_pattern_size_correct pattern region w) as [[[[|]|e] w1]|]; reflexivity.
Qed.

(** [image_vanish] has no path that returns [False]. *)
Lemma image_vanish_never_False (fuel : nat) (env : Env) (pattern : Pattern)
    (timeout : option Z) (region : option Rectangle) (w : World)
    (v : option bool) (w' : World) :
  image_vanish fuel env pattern timeout region w = Some (Ok v, w') ->
  v = None \/ v = Some true.
Proof.
  unfold image_vanish, bind, ret.
  repeat (case_scrutinee; simpl in * ); intros H; inversion H; subst; auto.
Qed.

(** C1, amended.  For a pattern that fits the region and a given timeout,
    if every search attempt made before the deadline returns a point that
    [image_vanish] counts as present (both coordinates other than -1) and
    the clock then reaches the deadline, [image_vanish] returns [None], the
    value it also returns when the guard fails, after exactly one capture
    per attempt. *)
Theorem image_vanish_timeout_returns_None (env : Env) (pattern : Pattern)
    (r : Rectangle) (timeout : Z) (w : World) (n : nat) :
  fst (get_size pattern) <= rect_width r ->
  snd (get_size pattern) <= rect_height r ->
  (forall k, (k < n)%nat ->
     datetime_now env (ticks w + k) < datetime_now env (ticks w) + timeout) ->
  datetime_now env (ticks w) + timeout <= datetime_now env (ticks w + n) ->
  (forall k wk, (k < n)%nat -> shots wk = (shots w + k)%nat ->
     exists pt wk',
       match_template env pattern (Some r) wk = Some (Ok pt, wk') /\
       loc_x pt <> -1 /\ loc_y pt <> -1) ->
  forall fuel, (n <= fuel)%nat ->
    exists w',
      image_vanish fuel env pattern (Some timeout) (Some r) w = Some (Ok None, w') /\
      shots w' = (shots w + n)%nat.
Proof.
  intros Hw Hh Hearly Hlate Hfound fuel Hfuel.
  destruct (is_pattern_size_correct_with_region pattern r w)
    as (w1 & Hguard & Hs1 & Ht1 & _).
  replace ((fst (get_size pattern) <=? rect_width r)
           && (snd (get_size pattern) <=? rect_height r)) with true in Hguard
    by (symmetry; apply andb_true_iff; rewrite !Z.leb_le; split; assumption).
  rewrite image_vanish_unfold, Hguard, Ht1.
  destruct (image_vanish_loop_still_present env pattern r
              (datetime_now env (ticks w) + timeout) (shots w) (ticks w) n
              Hearly Hlate Hfound n 0%nat fuel
              (mkWorld (shots w1) (S (ticks w)) (engine_calls w1) (records w1))
              ltac:(lia) Hfuel ltac:(simpl; lia) ltac:(simpl; lia))
    as (w' & Hloop & Hs' & _).
  rewrite Nat.add_0_r in Hloop.
  rewrite Hloop. exists w'. split; [reflexivity|assumption].
Qed.

(** In a region whose origin is not negative, every point other than the
    sentinel passes the presence test of [image_vanish]. *)
Lemma match_template_found_is_present (env : Env) (pattern : Pattern) (r : Rectangle)
    (w : World) (pt : Location) (w' : World) :
  0 <= rect_x r -> 0 <= rect_y r ->
  match_template env pattern (Some r) w = Some (Ok pt, w') ->
  pt <> mkLocation (-1) (-1) ->
  loc_x pt <> -1 /\ loc_y pt <> -1.
Proof.
  intros Hx Hy H Hpt.
  destruct (match_template_found _ _ _ _ _ _ H Hpt)
    as (img & res & mn & mx & mnl & j & i & _ & _ & _ & _ & _ & _ & ->).
  simpl. lia.
Qed.

(** ** Runs on the sample data *)

(** C1 as stated fails: the icon fits the region, both attempts made before
    the deadline find it at (101, 51), the third clock reading reaches the
    deadline, and [image_vanish] returns [None], not [False]. *)
Lemma image_vanish_timeout_is_not_False :
  (fst <$> is_pattern_size_correct (icon (9 # 10)) (Some corner_region) fresh_world)
    = Some (Ok true) /\
  (forall wk, fst <$> match_template steady_env (icon (9 # 10)) (Some corner_region) wk
              = Some (Ok (mkLocation 101 51))) /\
  datetime_now steady_env 1 < datetime_now steady_env 0 + 10 /\
  datetime_now steady_env 0 + 10 <= datetime_now steady_env 2 /\
  (fst <$> image_vanish 5 steady_env (icon (9 # 10)) (Some 10) (Some corner_region)
             fresh_world) = Some (Ok None) /\
  (fst <$> image_vanish 5 steady_env (icon (9 # 10)) (Some 10) (Some corner_region)
             fresh_world) <> Some (Ok (Some false)).
Proof.
  split; [reflexivity|]. split; [intros wk; reflexivity|].
  split; [reflexivity|]. split; [discriminate|].
  split; [reflexivity|discriminate].
Qed.

(** The timeout theorem on the sample data: two attempts, deadline at the
    third clock reading. *)
Lemma image_vanish_timeout_returns_None_witness :
  exists w',
    image_vanish 2 steady_env (icon (9 # 10)) (Some 10) (Some corner_region) fresh_world
      = Some (Ok None, w') /\
    shots w' = 2%nat.
Proof.
  apply (image_vanish_timeout_returns_None steady_env (icon (9 # 10)) corner_region
           10 fresh_world 2).
  - simpl. lia.
  - simpl. lia.
  - intros k Hk. simpl. lia.
  - simpl. lia.
  - intros k wk _ _. eexists. eexists. split; [reflexivity|]. simpl. lia.
  - lia.
Defined.

(** Capture failure on the sample data. *)
Lemma capture_failure_is_masked_witness :
  exists w1 w2,
    match_template blind_env (icon (9 # 10)) None fresh_world
      = Some (Ok (mkLocation (-1) (-1)), w1) /\
    match_template_multiple 0 blind_env (icon (9 # 10)) None (1 # 2) fresh_world
      = Some (Ok [], w2) /\
    records w1 = [debug_searching "icon.png"; warning_screenshot_failed] /\
    records w2 = [debug_searching "icon.png"; warning_screenshot_failed].
Proof.
  destruct (capture_failure_is_masked blind_env (icon (9 # 10)) None (1 # 2) 0
              fresh_world eq_refl) as [(w1 & H1 & R1 & _) (w2 & H2 & R2 & _)].
  exists w1, w2. repeat split; assumption.
Defined.

(** Channel depth on the sample data: similarity 0.99 sends the colour
    arrays, similarity 0.9 the grayscale arrays. *)
Lemma channel_depth_is_bimodal_witness :
  (exists r w',
     match_template steady_env (icon (99 # 100)) (Some corner_region) fresh_world
       = Some (r, w') /\
     engine_calls w' = [(screen_rgb, icon_rgb)]) /\
  (exists r w',
     match_template steady_env (icon (9 # 10)) (Some corner_region) fresh_world
       = Some (r, w') /\
     engine_calls w' = [(screen_gray, icon_gray)]).
Proof.
  split.
  - destruct (channel_depth_is_bimodal steady_env (icon (99 # 100)) (Some corner_region)
                (1 # 2) 0 fresh_world screen_image eq_refl)
      as (single & multi & Hcolor & _ & (r & w' & Hrun & Hcalls) & _).
    destruct (Hcolor ltac:(reflexivity)) as [-> _].
    exists r, w'. split; assumption.
  - destruct (channel_depth_is_bimodal steady_env (icon (9 # 10)) (Some corner_region)
                (1 # 2) 0 fresh_world screen_image eq_refl)
      as (single & multi & _ & Hgray & (r & w' & Hrun & Hcalls) & _).
    destruct (Hgray ltac:(discriminate)) as [-> _].
    exists r, w'. split; assumption.
Defined.

(** The icon found at (101, 51) in the region at (100, 50): score 1 against
    similarity 0.9, and the point is inside the region. *)
Lemma match_template_result_is_sound_witness :
  exists w',
    match_template steady_env (icon (9 # 10)) (Some corner_region) fresh_world
      = Some (Ok (mkLocation 101 51), w') /\
    (similarity (icon (9 # 10)) <= 1 # 1)%Q /\
    rect_x corner_region <= 101 < rect_x corner_region + rect_width corner_region /\
    rect_y corner_region <= 51 < rect_y corner_region + rect_height corner_region.
Proof.
  eexists. split; [reflexivity|].
  destruct (match_template_result_is_sound steady_env (icon (9 # 10)) (Some corner_region)
              fresh_world (mkLocation 101 51) _ eq_refl ltac:(discriminate))
    as (haystack & needle & res & mn & mx & mnl & mxl & Hcalls & Heng & Hmm & Hle & Hreg).
  simpl in Hcalls, Heng. inversion Hcalls; subst haystack needle.
  inversion Heng; subst res. inversion Hmm; subst.
  split; [exact Hle|].
  destruct (Hreg corner_region eq_refl) as [_ Hbox].
  apply (Hbox 2 2).
  - split; [reflexivity|repeat constructor].
  - split; [reflexivity|repeat constructor].
  - lia.
  - lia.
  - split; [reflexivity|repeat constructor].
Defined.

(** One iteration on [corner_surface], maximum 0.7: recorded under
    similarity 0.8, not recorded under similarity 0.65. *)
Lemma extraction_records_strictly_between_witness :
  extract_matches 5 (icon (8 # 10)) (1 # 2) corner_surface [] =
    extract_matches 4 (icon (8 # 10)) (1 # 2)
      (suppress corner_surface (0, 0) (2, 2)) [mkLocation 0 0] /\
  extract_matches 5 (icon (65 # 100)) (1 # 2) corner_surface [] = Some (Ok []).
Proof.
  pose proof (extraction_records_strictly_between (icon (8 # 10)) (1 # 2) corner_surface
                (6 # 10) (7 # 10) (1, 0) (0, 0) eq_refl) as (Hrec & _ & _).
  pose proof (extraction_records_strictly_between (icon (65 # 100)) (1 # 2) corner_surface
                (6 # 10) (7 # 10) (1, 0) (0, 0) eq_refl) as (_ & Hstop & _).
  split.
  - apply (Hrec 4%nat []). split; reflexivity.
  - apply (Hstop 4%nat []). right. discriminate.
Defined.

(** The loop returns for the 2x2 icon and runs on for the one-pixel-wide
    sliver. *)
Lemma extraction_loop_termination_witness :
  (exists out,
     extract_matches (S (live (1 # 2) corner_surface)) (icon (8 # 10)) (1 # 2)
       corner_surface [] = Some (Ok out)) /\
  getitem2 (suppress strip_surface (1, 0) (1, 2)) 0 1 = Some (7 # 10)%Q /\
  extract_matches 1000 (sliver (8 # 10)) (1 # 2) strip_surface [] = None.
Proof.
  destruct (extraction_loop_termination (icon (8 # 10)) (1 # 2) corner_surface
              (6 # 10) (7 # 10) (1, 0) (0, 0) ltac:(reflexivity) eq_refl) as [Hwide _].
  destruct (extraction_loop_termination (sliver (8 # 10)) (1 # 2) strip_surface
              (6 # 10) (7 # 10) (0, 0) (1, 0) ltac:(reflexivity) eq_refl) as [_ Hthin].
  split; [|split].
  - apply Hwide; simpl; lia.
  - apply Hthin. left. reflexivity.
  - apply Hthin; [left|..]; reflexivity.
Defined.

(** In a region at (100, 50) the same surface gives a single match in screen
    coordinates and multi-match locations in surface coordinates, none of
    which lies in the region. *)
Example multi_match_is_not_in_screen_space :
  (fst <$> match_template faint_env (icon (7 # 10)) (Some wide_region) fresh_world)
    = Some (Ok (mkLocation 100 50)) /\
  (fst <$> match_template_multiple 9 faint_env (icon (8 # 10)) (Some wide_region)
             (1 # 2) fresh_world)
    = Some (Ok [mkLocation 0 0; mkLocation 1 0; mkLocation 0 1; mkLocation 1 1]).
Proof. split; reflexivity. Qed.

(** The two omitted arguments on the sample data: [image_find] falls back on
    [Settings.auto_wait_timeout], [image_vanish] raises. *)
Example omitted_timeout_on_sample_data :
  (fst <$> image_find 5 steady_env (icon (9 # 10)) None (Some corner_region) fresh_world)
    = Some (Ok (Some (mkLocation 101 51))) /\
  (fst <$> image_vanish 5 steady_env (icon (9 # 10)) None (Some corner_region) fresh_world)
    = Some (Raise TypeError) /\
  (fst <$> image_find 5 steady_env (icon (9 # 10)) (Some 10) None fresh_world)
    = Some (Raise AttributeError).
Proof. repeat split; reflexivity. Qed.

(** The location (1, 1) returned for the region at (100, 50) is a cell of
    the surface. *)
Lemma multi_match_locations_are_surface_local_witness :
  exists v,
    getitem2 corner_surface 1 1 = Some v /\
    (fst <$> match_template_multiple 9 faint_env (icon (8 # 10)) (Some wide_region)
               (1 # 2) fresh_world)
      = Some (Ok [mkLocation 0 0; mkLocation 1 0; mkLocation 0 1; mkLocation 1 1]).
Proof.
  destruct (multi_match_locations_are_surface_local 9 faint_env (icon (8 # 10))
              (Some wide_region) (1 # 2) fresh_world) as [Hmulti _].
  destruct (match_template_multiple 9 faint_env (icon (8 # 10)) (Some wide_region)
              (1 # 2) fresh_world) as [[out w']|] eqn:E; vm_compute in E;
    [|discriminate E].
  inversion E; subst out w'; clear E.
  destruct (Hmulti _ _ (mkLocation 1 1) eq_refl
              ltac:(do 3 apply list_elem_of_further; apply list_elem_of_here))
    as (haystack & needle & res & v & _ & Heng & _ & _ & _ & Hv).
  inversion Heng; subst res. exists v. split; [exact Hv|reflexivity].
Defined.

(** * Further properties of [image_search.py] *)

(** ** [match_template], case by case *)

(** X1.  When the capture and the engine succeed, [match_template] returns
    the sentinel if the global maximum is below the pattern's similarity,
    and otherwise the max-location moved by the region's origin (unmoved
    without a region).  It makes exactly one capture and one engine call
    and logs only its debug line. *)
Theorem match_template_on_success (env : Env) (pattern : Pattern)
    (region : option Rectangle) (w : World) (img : ScreenshotImage) (res : Surface)
    (min_val max_val : Q) (min_loc max_loc : Z * Z) :
  screenshot env (shots w) region = Ok img ->
  cv2_matchTemplate env
    (fst (single_match_arrays pattern img (Qeq_bool (similarity pattern) EXACT_PRECISION)))
    (snd (single_match_arrays pattern img (Qeq_bool (similarity pattern) EXACT_PRECISION)))
    = Ok res ->
  cv2_minMaxLoc res = Ok (min_val, max_val, min_loc, max_loc) ->
  match_template env pattern region w =
    Some (Ok (if Qltb max_val (similarity pattern) then mkLocation (-1) (-1)
              else match region with
                   | Some r => mkLocation (fst max_loc + rect_x r) (snd max_loc + rect_y r)
                   | None => mkLocation (fst max_loc) (snd max_loc)
                   end),
          mkWorld (S (shots w)) (ticks w)
                  (engine_calls w
                   ++ [single_match_arrays pattern img
                         (Qeq_bool (similarity pattern) EXACT_PRECISION)])
                  (records w ++ [debug_searching (get_filename pattern)])).
Proof.
  intros Hshot Heng Hmm.
  destruct (cv2_minMaxLoc_max _ _ _ _ _ Hmm) as (j & i & -> & _ & _).
  unfold single_match_arrays in *. run. rewrite Hshot. simpl.
  destruct (Qeq_bool (similarity pattern) EXACT_PRECISION); simpl in *;
    rewrite Heng; simpl; rewrite Hmm; simpl;
    (destruct (Qltb max_val (similarity pattern)); simpl; [reflexivity|]);
    replace ((Z.of_nat i =? -1) || (Z.of_nat j =? -1)) with false
      by (symmetry; apply orb_false_iff; split; apply Z.eqb_neq; lia);
    destruct region; reflexivity.
Qed.

(** X2.  Only [ScreenshotError] is masked: any other exception raised by the
    capture or by the engine leaves [match_template] and
    [match_template_multiple] as it is, without the "Screenshot failed."
    warning. *)
Theorem other_exceptions_are_not_masked (env : Env) (pattern : Pattern)
    (region : option Rectangle) (threshold : Q) (fuel : nat) (w : World) (e : exn) :
  e <> ScreenshotError ->
  screenshot env (shots w) region = Raise e \/
  (exists img, screenshot env (shots w) region = Ok img /\
               forall haystack needle, cv2_matchTemplate env haystack needle = Raise e) ->
  exists w1 w2,
    match_template env pattern region w = Some (Raise e, w1) /\
    match_template_multiple fuel env pattern region threshold w = Some (Raise e, w2) /\
    records w1 = records w ++ [debug_searching (get_filename pattern)] /\
    records w2 = records w ++ [debug_searching (get_filename pattern)].
Proof.
  intros Hne Hfail.
  assert (exn_eqb e ScreenshotError = false) as Hneq
    by (destruct e; first [reflexivity|exfalso; apply Hne; reflexivity]).
  destruct Hfail as [Hshot|(img & Hshot & Heng)]; run; rewrite Hshot; simpl.
  - rewrite Hneq. eexists. eexists. repeat split; reflexivity.
  - rewrite !Heng. simpl. rewrite Hneq. eexists. eexists. repeat split; reflexivity.
Qed.

(** ** The polling loops *)

(** [image_find] with the guard and the deadline computed. *)
Lemma image_find_unfold (fuel : nat) (env : Env) (pattern : Pattern)
    (timeout : option Z) (region : option Rectangle) (w : World) :
  image_find fuel env pattern timeout region w =
    match is_pattern_size_correct pattern region w with
    | Some (Ok true, w1) =>
        image_find_loop fuel env pattern region
          (datetime_now env (ticks w1))
          (datetime_now env (ticks w1) + default (auto_wait_timeout env) timeout)
          (mkWorld (shots w1) (S (ticks w1)) (engine_calls w1) (records w1))
    | Some (Ok false, w1) => Some (Ok None, w1)
    | Some (Raise e, w1) => Some (Raise e, w1)
    | None => None
    end.
Proof.
  unfold image_find, bind, now, timedelta, ret.
  destruct (is_pattern_size_correct pattern region w) as [[[[|]|e] w1]|];
    destruct timeout; reflexivity.
Qed.

(** A guard that passes leaves the counters of the world alone. *)
Lemma guard_passes (pattern : Pattern) (r : Rectangle) (w : World) :
  fst (get_size pattern) <= rect_width r ->
  snd (get_size pattern) <= rect_height r ->
  exists w1,
    is_pattern_size_correct pattern (Some r) w = Some (Ok true, w1) /\
    shots w1 = shots w /\ ticks w1 = ticks w /\ engine_calls w1 = engine_calls w.
Proof.
  intros Hw Hh.
  destruct (is_pattern_size_correct_with_region pattern r w)
    as (w1 & Hguard & Hs & Ht & He & _).
  exists w1. repeat split; try assumption.
  rewrite Hguard. do 3 f_equal.
  apply andb_true_iff. rewrite !Z.leb_le. split; assumption.
Qed.

(** Iterations of [image_find]'s loop that do not find the pattern before
    the deadline: [n] of them take the loop from the clock's reading [k] to
    its reading [k + n], one capture and one reading each. *)
Lemma image_find_loop_absent (env : Env) (pattern : Pattern) (region : option Rectangle)
    (end_time : Z) (shots0 ticks0 n : nat) :
  (forall k, (k < n)%nat -> datetime_now env (ticks0 + k) < end_time) ->
  (forall k wk, (k < n)%nat -> shots wk = (shots0 + k)%nat ->
     exists pt wk',
       match_template env pattern region wk = Some (Ok pt, wk') /\ loc_x pt = -1) ->
  forall (m k : nat) (wk : World),
    (k + m = n)%nat -> shots wk = (shots0 + k)%nat -> ticks wk = (ticks0 + 1 + k)%nat ->
    exists wn,
      shots wn = (shots0 + n)%nat /\ ticks wn = (ticks0 + 1 + n)%nat /\
      forall fuel,
        image_find_loop (m + fuel) env pattern region
          (datetime_now env (ticks0 + k)) end_time wk =
        image_find_loop fuel env pattern region
          (datetime_now env (ticks0 + n)) end_time wn.
Proof.
  intros Hearly Habsent. induction m as [|m IH]; intros k wk Hk Hs Ht.
  - replace k with n in * by lia. exists wk. repeat split; assumption.
  - pose (wl := log_append (debug_remaining (get_filename pattern)
                              (end_time - datetime_now env (ticks0 + k))) wk).
    destruct (Habsent k wl ltac:(lia) Hs) as (pt & wk' & Hmt & Hx).
    destruct (match_template_runs env pattern region wl) as (r0 & w0 & Hrun & Hs' & Ht').
    rewrite Hmt in Hrun. inversion Hrun; subst r0 w0; clear Hrun.
    destruct (IH (S k) (mkWorld (shots wk') (S (ticks wk')) (engine_calls wk') (records wk'))
                ltac:(lia) ltac:(simpl in *; lia) ltac:(simpl in *; lia))
      as (wn & Hsn & Htn & Hloop).
    exists wn. repeat split; try assumption.
    intros fuel. simpl.
    replace (datetime_now env (ticks0 + k) <? end_time) with true
      by (symmetry; apply Z.ltb_lt, Hearly; lia).
    unfold bind at 1. unfold logger_debug. fold wl.
    unfold bind at 1. rewrite Hmt.
    unfold bind at 1. unfold now. rewrite Hx.
    change (negb (-1 =? -1)) with false. cbv iota.
    replace (datetime_now env (ticks wk')) with (datetime_now env (ticks0 + S k))
      by (f_equal; simpl in Ht'; lia).
    apply Hloop.
Qed.

(** X3.  [image_find] times out with [None]: if the pattern fits the region
    and none of the [n] attempts made before the deadline finds it (each
    returns a point with x = -1), then at the first clock reading that
    reaches the deadline [image_find] returns [None], after exactly [n]
    captures.  An omitted timeout counts as [Settings.auto_wait_timeout]. *)
Theorem image_find_times_out (env : Env) (pattern : Pattern) (r : Rectangle)
    (timeout : option Z) (w : World) (n : nat) :
  fst (get_size pattern) <= rect_width r ->
  snd (get_size pattern) <= rect_height r ->
  (forall k, (k < n)%nat ->
     datetime_now env (ticks w + k)
     < datetime_now env (ticks w) + default (auto_wait_timeout env) timeout) ->
  datetime_now env (ticks w) + default (auto_wait_timeout env) timeout
    <= datetime_now env (ticks w + n) ->
  (forall k wk, (k < n)%nat -> shots wk = (shots w + k)%nat ->
     exists pt wk',
       match_template env pattern (Some r) wk = Some (Ok pt, wk') /\ loc_x pt = -1) ->
  forall fuel, (n <= fuel)%nat ->
    exists w',
      image_find fuel env pattern timeout (Some r) w = Some (Ok None, w') /\
      shots w' = (shots w + n)%nat.
Proof.
  intros Hw Hh Hearly Hlate Habsent fuel Hfuel.
  destruct (guard_passes pattern r w Hw Hh) as (w1 & Hguard & Hs1 & Ht1 & _).
  rewrite image_find_unfold, Hguard, Ht1.
  destruct (image_find_loop_absent env pattern (Some r) _ (shots w) (ticks w) n
              Hearly Habsent n 0%nat
              (mkWorld (shots w1) (S (ticks w)) (engine_calls w1) (records w1))
              ltac:(lia) ltac:(simpl; lia) ltac:(simpl; lia))
    as (wn & Hsn & _ & Hloop).
  rewrite Nat.add_0_r in Hloop.
  replace fuel with (n + (fuel - n))%nat by lia. rewrite Hloop.
  exists wn. split; [|assumption].
  destruct (fuel - n)%nat; simpl;
    replace (datetime_now env (ticks w + n) <? _) with false
      by (symmetry; apply Z.ltb_ge; assumption); reflexivity.
Qed.

(** X4.  The first success wins: if the pattern fits the region, the first
    [n] attempts do not find it, and attempt [n], started before the
    deadline, returns a point with x other than -1, then [image_find]
    returns that point at once, after exactly [n + 1] captures. *)
Theorem image_find_returns_first_match (env : Env) (pattern : Pattern) (r : Rectangle)
    (timeout : option Z) (w : World) (n : nat) (pos : Location) :
  fst (get_size pattern) <= rect_width r ->
  snd (get_size pattern) <= rect_height r ->
  (forall k, (k <= n)%nat ->
     datetime_now env (ticks w + k)
     < datetime_now env (ticks w) + default (auto_wait_timeout env) timeout) ->
  (forall k wk, (k < n)%nat -> shots wk = (shots w + k)%nat ->
     exists pt wk',
       match_template env pattern (Some r) wk = Some (Ok pt, wk') /\ loc_x pt = -1) ->
  (forall wn, shots wn = (shots w + n)%nat ->
     exists wn', match_template env pattern (Some r) wn = Some (Ok pos, wn')) ->
  loc_x pos <> -1 ->
  forall fuel, (n < fuel)%nat ->
    exists w',
      image_find fuel env pattern timeout (Some r) w = Some (Ok (Some pos), w') /\
      shots w' = (shots w + n + 1)%nat.
Proof.
  intros Hw Hh Hearly Habsent Hfound Hx fuel Hfuel.
  destruct (guard_passes pattern r w Hw Hh) as (w1 & Hguard & Hs1 & Ht1 & _).
  rewrite image_find_unfold, Hguard, Ht1.
  destruct (image_find_loop_absent env pattern (Some r) _ (shots w) (ticks w) n
              ltac:(intros k Hk; apply Hearly; lia) Habsent n 0%nat
              (mkWorld (shots w1) (S (ticks w)) (engine_calls w1) (records w1))
              ltac:(lia) ltac:(simpl; lia) ltac:(simpl; lia))
    as (wn & Hsn & _ & Hloop).
  rewrite Nat.add_0_r in Hloop.
  replace fuel with (n + S (fuel - n - 1))%nat by lia. rewrite Hloop.
  cbn [image_find_loop].
  replace (datetime_now env (ticks w + n) <? _) with true
    by (symmetry; apply Z.ltb_lt, Hearly; lia).
  unfold bind at 1. unfold logger_debug.
  match goal with |- context [log_append ?a ?b] => set (wl := log_append a b) end.
  destruct (Hfound wl Hsn) as (wn' & Hmt).
  destruct (match_template_runs env pattern (Some r) wl) as (r0 & w0 & Hrun & Hs' & _).
  rewrite Hmt in Hrun. inversion Hrun; subst r0 w0; clear Hrun.
  unfold bind at 1. rewrite Hmt. unfold bind, now.
  replace (negb (loc_x pos =? -1)) with true
    by (symmetry; apply negb_true_iff, Z.eqb_neq; assumption).
  eexists. split; [reflexivity|]. simpl in *. lia.
Qed.

(** Iterations of [image_vanish]'s loop that still find the pattern before
    the deadline. *)
Lemma image_vanish_loop_present (env : Env) (pattern : Pattern) (region : option Rectangle)
    (end_time : Z) (shots0 ticks0 n : nat) :
  (forall k, (k < n)%nat -> datetime_now env (ticks0 + k) < end_time) ->
  (forall k wk, (k < n)%nat -> shots wk = (shots0 + k)%nat ->
     exists pt wk',
       match_template env pattern region wk = Some (Ok pt, wk') /\
       loc_x pt <> -1 /\ loc_y pt <> -1) ->
  forall (m k : nat) (wk : World),
    (k + m = n)%nat -> shots wk = (shots0 + k)%nat -> ticks wk = (ticks0 + 1 + k)%nat ->
    exists wn,
      shots wn = (shots0 + n)%nat /\ ticks wn = (ticks0 + 1 + n)%nat /\
      forall fuel,
        image_vanish_loop (m + fuel) env pattern region true
          (datetime_now env (ticks0 + k)) end_time wk =
        image_vanish_loop fuel env pattern region true
          (datetime_now env (ticks0 + n)) end_time wn.
Proof.
  intros Hearly Hpresent. induction m as [|m IH]; intros k wk Hk Hs Ht.
  - replace k with n in * by lia. exists wk. repeat split; assumption.
  - destruct (Hpresent k wk ltac:(lia) Hs) as (pt & wk' & Hmt & Hx & Hy).
    destruct (match_template_runs env pattern region wk) as (r0 & w0 & Hrun & Hs' & Ht').
    rewrite Hmt in Hrun. inversion Hrun; subst r0 w0; clear Hrun.
    destruct (IH (S k) (mkWorld (shots wk') (S (ticks wk')) (engine_calls wk') (records wk'))
                ltac:(lia) ltac:(simpl in *; lia) ltac:(simpl in *; lia))
      as (wn & Hsn & Htn & Hloop).
    exists wn. repeat split; try assumption.
    intros fuel. cbn [Nat.add image_vanish_loop andb].
    replace (datetime_now env (ticks0 + k) <? end_time) with true
      by (symmetry; apply Z.ltb_lt, Hearly; lia).
    unfold bind at 1. rewrite Hmt.
    replace (negb (loc_x pt =? -1) && negb (loc_y pt =? -1)) with true
      by (symmetry; apply andb_true_iff; split; apply negb_true_iff, Z.eqb_neq; assumption).
    unfold bind, now.
    replace (datetime_now env (ticks wk')) with (datetime_now env (ticks0 + S k))
      by (f_equal; lia).
    apply Hloop.
Qed.

(** One iteration of [image_vanish]'s loop whose search comes back without
    the pattern ends the loop with [pattern_found] false. *)
Lemma image_vanish_loop_vanished (fuel : nat) (env : Env) (pattern : Pattern)
    (region : option Rectangle) (start_time end_time : Z) (w : World)
    (pt : Location) (w1 : World) :
  start_time < end_time ->
  match_template env pattern region w = Some (Ok pt, w1) ->
  loc_x pt = -1 \/ loc_y pt = -1 ->
  image_vanish_loop (S fuel) env pattern region true start_time end_time w =
    Some (Ok false, mkWorld (shots w1) (S (ticks w1)) (engine_calls w1) (records w1)).
Proof.
  intros Hlt Hmt Hgone. cbn [image_vanish_loop andb].
  replace (start_time <? end_time) with true by (symmetry; apply Z.ltb_lt; assumption).
  unfold bind at 1. rewrite Hmt.
  replace (negb (loc_x pt =? -1) && negb (loc_y pt =? -1)) with false.
  - unfold bind, now. destruct fuel; reflexivity.
  - symmetry. apply andb_false_iff.
    destruct Hgone as [-> | ->]; [left|right]; reflexivity.
Qed.

(** X5.  [image_vanish] reports [True] at the first attempt that does not
    find the pattern: if the pattern fits the region, the first [n]
    attempts still find it, and attempt [n], started before the deadline,
    returns a point with x = -1 or y = -1, then [image_vanish] returns
    [True] after exactly [n + 1] captures. *)
Theorem image_vanish_returns_True (env : Env) (pattern : Pattern) (r : Rectangle)
    (timeout : Z) (w : World) (n : nat) (pt : Location) :
  fst (get_size pattern) <= rect_width r ->
  snd (get_size pattern) <= rect_height r ->
  (forall k, (k <= n)%nat ->
     datetime_now env (ticks w + k) < datetime_now env (ticks w) + timeout) ->
  (forall k wk, (k < n)%nat -> shots wk = (shots w + k)%nat ->
     exists pt wk',
       match_template env pattern (Some r) wk = Some (Ok pt, wk') /\
       loc_x pt <> -1 /\ loc_y pt <> -1) ->
  (forall wn, shots wn = (shots w + n)%nat ->
     exists wn', match_template env pattern (Some r) wn = Some (Ok pt, wn')) ->
  loc_x pt = -1 \/ loc_y pt = -1 ->
  forall fuel, (n < fuel)%nat ->
    exists w',
      image_vanish fuel env pattern (Some timeout) (Some r) w = Some (Ok (Some true), w') /\
      shots w' = (shots w + n + 1)%nat.
Proof.
  intros Hw Hh Hearly Hpresent Hlast Hgone fuel Hfuel.
  destruct (guard_passes pattern r w Hw Hh) as (w1 & Hguard & Hs1 & Ht1 & _).
  rewrite image_vanish_unfold, Hguard, Ht1.
  destruct (image_vanish_loop_present env pattern (Some r) _ (shots w) (ticks w) n
              ltac:(intros k Hk; apply Hearly; lia) Hpresent n 0%nat
              (mkWorld (shots w1) (S (ticks w)) (engine_calls w1) (records w1))
              ltac:(lia) ltac:(simpl; lia) ltac:(simpl; lia))
    as (wn & Hsn & _ & Hloop).
  rewrite Nat.add_0_r in Hloop.
  replace fuel with (n + S (fuel - n - 1))%nat by lia. rewrite Hloop.
  destruct (Hlast wn Hsn) as (wn' & Hmt).
  destruct (match_template_runs env pattern (Some r) wn) as (r0 & w0 & Hrun & Hs' & _).
  rewrite Hmt in Hrun. inversion Hrun; subst r0 w0; clear Hrun.
  rewrite (image_vanish_loop_vanished _ _ _ _ _ _ _ pt wn'
             (Hearly n ltac:(lia)) Hmt Hgone).
  eexists. split; [reflexivity|]. simpl. lia.
Qed.

(** What [match_template] does when the capture fails. *)
Lemma match_template_capture_failed (env : Env) (pattern : Pattern)
    (region : option Rectangle) (w : World) :
  screenshot env (shots w) region = Raise ScreenshotError ->
  match_template env pattern region w =
    Some (Ok (mkLocation (-1) (-1)),
          mkWorld (S (shots w)) (ticks w) (engine_calls w)
                  (records w ++ [debug_searching (get_filename pattern);
                                 warning_screenshot_failed])).
Proof.
  intros Hshot. run. rewrite Hshot. simpl. rewrite <- app_assoc. reflexivity.
Qed.

(** X6.  A failed capture counts as a vanished pattern: if the pattern fits
    the region, the timeout is positive and the first capture raises
    [ScreenshotError], [image_vanish] returns [True] without ever calling
    the engine. *)
Theorem image_vanish_True_on_capture_failure (env : Env) (pattern : Pattern)
    (r : Rectangle) (timeout : Z) (w : World) (fuel : nat) :
  fst (get_size pattern) <= rect_width r ->
  snd (get_size pattern) <= rect_height r ->
  0 < timeout ->
  screenshot env (shots w) (Some r) = Raise ScreenshotError ->
  exists w',
    image_vanish (S fuel) env pattern (Some timeout) (Some r) w
      = Some (Ok (Some true), w') /\
    engine_calls w' = engine_calls w /\ shots w' = S (shots w).
Proof.
  intros Hw Hh Hpos Hshot.
  destruct (guard_passes pattern r w Hw Hh) as (w1 & Hguard & Hs1 & Ht1 & He1).
  rewrite image_vanish_unfold, Hguard, Ht1.
  pose proof (match_template_capture_failed env pattern (Some r)
                (mkWorld (shots w1) (S (ticks w)) (engine_calls w1) (records w1))
                ltac:(simpl; rewrite Hs1; exact Hshot)) as Hmt.
  rewrite (image_vanish_loop_vanished fuel env pattern (Some r)
             (datetime_now env (ticks w)) (datetime_now env (ticks w) + timeout)
             _ _ _ ltac:(lia) Hmt (or_introl eq_refl)).
  eexists. split; [reflexivity|]. simpl. rewrite He1, Hs1. split; reflexivity.
Qed.

(** X7.  With a timeout that is not positive neither wrapper looks at the
    screen: for a pattern that fits the region, [image_find] and
    [image_vanish] return [None] at once, without a capture, whatever the
    fuel and whatever is on the screen. *)
Theorem no_search_without_positive_timeout (env : Env) (pattern : Pattern)
    (r : Rectangle) (find_timeout : option Z) (vanish_timeout : Z) (w : World)
    (fuel : nat) :
  fst (get_size pattern) <= rect_width r ->
  snd (get_size pattern) <= rect_height r ->
  default (auto_wait_timeout env) find_timeout <= 0 ->
  vanish_timeout <= 0 ->
  (exists w',
     image_find fuel env pattern find_timeout (Some r) w = Some (Ok None, w') /\
     shots w' = shots w /\ engine_calls w' = engine_calls w) /\
  (exists w',
     image_vanish fuel env pattern (Some vanish_timeout) (Some r) w = Some (Ok None, w') /\
     shots w' = shots w /\ engine_calls w' = engine_calls w).
Proof.
  intros Hw Hh Hfind Hvanish.
  destruct (guard_passes pattern r w Hw Hh) as (w1 & Hguard & Hs1 & Ht1 & He1).
  split.
  - rewrite image_find_unfold, Hguard.
    eexists. split.
    + destruct fuel; cbn [image_find_loop];
        replace (_ <? _) with false by (symmetry; apply Z.ltb_ge; lia); reflexivity.
    + simpl. split; assumption.
  - rewrite image_vanish_unfold, Hguard.
    eexists. split.
    + destruct fuel; cbn [image_vanish_loop andb];
        replace (_ <? _) with false by (symmetry; apply Z.ltb_ge; lia); reflexivity.
    + simpl. split; assumption.
Qed.

(** The guard always returns or raises, and reads no clock. *)
Lemma guard_runs (pattern : Pattern) (region : option Rectangle) (w : World) :
  exists r w1,
    is_pattern_size_correct pattern region w = Some (r, w1) /\
    ticks w1 = ticks w /\ shots w1 = shots w.
Proof.
  destruct region as [r|].
  - destruct (is_pattern_size_correct_with_region pattern r w) as (w1 & H & Hs & Ht & _).
    eauto.
  - rewrite is_pattern_size_correct_None. eauto.
Qed.

Lemma image_find_loop_returns (env : Env) (pattern : Pattern) (region : option Rectangle)
    (end_time : Z) (n : nat) :
  forall (fuel : nat) (w : World) (start_time : Z),
    (n <= fuel)%nat ->
    (n = 0%nat -> end_time <= start_time) ->
    ((0 < n)%nat -> end_time <= datetime_now env (ticks w + n - 1)) ->
    exists r w',
      image_find_loop fuel env pattern region start_time end_time w = Some (r, w').
Proof.
  induction n as [|n IH]; intros fuel w start_time Hfuel Hzero Hpos.
  - destruct fuel; cbn [image_find_loop];
      replace (start_time <? end_time) with false
        by (symmetry; apply Z.ltb_ge; auto); unfold ret; eauto.
  - destruct fuel as [|fuel]; [lia|]. cbn [image_find_loop].
    destruct (start_time <? end_time); [|unfold ret; eauto].
    unfold bind at 1. unfold logger_debug.
    match goal with |- context [log_append ?a ?b] => set (wl := log_append a b) end.
    destruct (match_template_runs env pattern region wl) as (r0 & w0 & Hrun & _ & Ht).
    unfold bind at 1. rewrite Hrun. destruct r0 as [pos|e]; [|eauto].
    unfold bind, now. destruct (negb (loc_x pos =? -1)); [unfold ret; eauto|].
    simpl in Ht. specialize (Hpos ltac:(lia)).
    apply IH; [lia|intros ->|intros Hn]; same_reading Hpos.
Qed.

Lemma image_vanish_loop_returns (env : Env) (pattern : Pattern) (region : option Rectangle)
    (end_time : Z) (n : nat) :
  forall (fuel : nat) (w : World) (pattern_found : bool) (start_time : Z),
    (n <= fuel)%nat ->
    (n = 0%nat -> end_time <= start_time) ->
    ((0 < n)%nat -> end_time <= datetime_now env (ticks w + n - 1)) ->
    exists r w',
      image_vanish_loop fuel env pattern region pattern_found start_time end_time w
        = Some (r, w').
Proof.
  induction n as [|n IH]; intros fuel w pattern_found start_time Hfuel Hzero Hpos.
  - destruct fuel; cbn [image_vanish_loop];
      replace (start_time <? end_time) with false
        by (symmetry; apply Z.ltb_ge; auto);
      rewrite andb_false_r; unfold ret; eauto.
  - destruct fuel as [|fuel]; [lia|]. cbn [image_vanish_loop].
    destruct (pattern_found && (start_time <? end_time)); [|unfold ret; eauto].
    destruct (match_template_runs env pattern region w) as (r0 & w0 & Hrun & _ & Ht).
    unfold bind at 1. rewrite Hrun. destruct r0 as [pos|e]; [|eauto].
    unfold bind, now.
    specialize (Hpos ltac:(lia)).
    apply IH; [lia|intros ->|intros Hn]; same_reading Hpos.
Qed.

(** X8.  The polling loops end with the clock: if the [n]-th clock reading
    after the call reaches the deadline, [image_find] and [image_vanish]
    return or raise within [n] iterations, whatever the searches give. *)
Theorem polling_ends_at_the_deadline (env : Env) (pattern : Pattern)
    (region : option Rectangle) (find_timeout : option Z) (vanish_timeout : Z)
    (w : World) (n : nat) :
  datetime_now env (ticks w) + default (auto_wait_timeout env) find_timeout
    <= datetime_now env (ticks w + n) ->
  datetime_now env (ticks w) + vanish_timeout <= datetime_now env (ticks w + n) ->
  (exists r w', image_find n env pattern find_timeout region w = Some (r, w')) /\
  (exists r w', image_vanish n env pattern (Some vanish_timeout) region w = Some (r, w')).
Proof.
  intros Hfind Hvanish.
  destruct (guard_runs pattern region w) as (g & w1 & Hguard & Ht1 & _).
  split.
  - rewrite image_find_unfold, Hguard. destruct g as [[|]|e]; eauto.
    rewrite Ht1.
    apply (image_find_loop_returns env pattern region _ n);
      [lia|intros ->; rewrite Nat.add_0_r in Hfind; exact Hfind
      |intros Hn; same_reading Hfind].
  - rewrite image_vanish_unfold, Hguard. destruct g as [[|]|e]; eauto.
    rewrite Ht1.
    destruct (image_vanish_loop_returns env pattern region
                (datetime_now env (ticks w) + vanish_timeout) n n
                (mkWorld (shots w1) (S (ticks w)) (engine_calls w1) (records w1))
                true (datetime_now env (ticks w))) as (r & w' & Hloop).
    + lia.
    + intros ->. rewrite Nat.add_0_r in Hvanish. exact Hvanish.
    + intros Hn. same_reading Hvanish.
    + rewrite Hloop. destruct r; eauto.
Qed.

(** The point [image_find]'s loop returns is the result of the last search
    it made. *)
Lemma image_find_loop_last_search (env : Env) (pattern : Pattern)
    (region : option Rectangle) (end_time : Z) (fuel : nat) :
  forall (start_time : Z) (w : World) (pos : Location) (w' : World),
    image_find_loop fuel env pattern region start_time end_time w
      = Some (Ok (Some pos), w') ->
    exists wk wk',
      match_template env pattern region wk = Some (Ok pos, wk') /\
      loc_x pos <> -1 /\ (shots w <= shots wk)%nat /\
      shots w' = shots wk' /\ engine_calls w' = engine_calls wk'.
Proof.
  induction fuel as [|fuel IH]; intros start_time w pos w'; cbn [image_find_loop];
    (destruct (start_time <? end_time); [|discriminate]); [discriminate|].
  unfold bind at 1. unfold logger_debug.
  match goal with |- context [log_append ?a ?b] => set (wl := log_append a b) end.
  destruct (match_template_runs env pattern region wl) as (r0 & w0 & Hrun & Hs & _).
  unfold bind at 1. rewrite Hrun. destruct r0 as [p0|e]; [|discriminate].
  unfold bind, now. destruct (negb (loc_x p0 =? -1)) eqn:Hx.
  - intros H. inversion H; subst. exists wl, w0.
    apply negb_true_iff, Z.eqb_neq in Hx. simpl. repeat split; try assumption. lia.
  - intros H. apply IH in H as (wk & wk' & Hmt & Hne & Hle & Hs' & He').
    exists wk, wk'. repeat split; try assumption. simpl in *. lia.
Qed.

(** X9.  Every point [image_find] returns is a match found by the last
    search of the call: the pattern fits the region, the last capture of
    the call succeeded, the last engine call was made on that capture's
    arrays and the pattern's, the global maximum of the surface the engine
    returned for them reached the pattern's similarity, and the point is
    that maximum's location moved by the region's origin; its x is not
    -1. *)
Theorem image_find_returns_a_match (fuel : nat) (env : Env) (pattern : Pattern)
    (timeout : option Z) (region : option Rectangle) (w : World)
    (pos : Location) (w' : World) :
  image_find fuel env pattern timeout region w = Some (Ok (Some pos), w') ->
  loc_x pos <> -1 /\
  exists (r : Rectangle) (k : nat) (img : ScreenshotImage) (res : Surface)
         (min_val max_val : Q) (min_loc max_loc : Z * Z),
    region = Some r /\
    fst (get_size pattern) <= rect_width r /\
    snd (get_size pattern) <= rect_height r /\
    (shots w <= k)%nat /\ shots w' = S k /\
    screenshot env k region = Ok img /\
    (exists calls,
       engine_calls w' =
         calls ++ [single_match_arrays pattern img
                     (Qeq_bool (similarity pattern) EXACT_PRECISION)]) /\
    cv2_matchTemplate env
      (fst (single_match_arrays pattern img
              (Qeq_bool (similarity pattern) EXACT_PRECISION)))
      (snd (single_match_arrays pattern img
              (Qeq_bool (similarity pattern) EXACT_PRECISION))) = Ok res /\
    cv2_minMaxLoc res = Ok (min_val, max_val, min_loc, max_loc) /\
    (similarity pattern <= max_val)%Q /\
    pos = mkLocation (fst max_loc + rect_x r) (snd max_loc + rect_y r).
Proof.
  rewrite image_find_unfold.
  destruct region as [r|]; [|rewrite is_pattern_size_correct_None; discriminate].
  destruct (is_pattern_size_correct_with_region pattern r w) as (w1 & Hguard & Hs1 & _).
  rewrite Hguard.
  destruct ((fst (get_size pattern) <=? rect_width r)
            && (snd (get_size pattern) <=? rect_height r)) eqn:Hfit; [|discriminate].
  apply andb_true_iff in Hfit as [Hw Hh]. apply Z.leb_le in Hw, Hh.
  intros H.
  apply image_find_loop_last_search in H as (wk & wk' & Hmt & Hx & Hle & Hs' & He').
  split; [assumption|].
  assert (pos <> mkLocation (-1) (-1)) as Hpos by (intros ->; apply Hx; reflexivity).
  destruct (match_template_runs env pattern (Some r) wk) as (r0 & w0 & Hrun & Hsk & _).
  rewrite Hmt in Hrun. inversion Hrun; subst r0 w0; clear Hrun.
  destruct (match_template_found _ _ _ _ _ _ Hmt Hpos)
    as (img & res & mn & mx & mnl & j & i & Hshot & Hcalls & Heng & Hmm & _ & Hsim & Hloc).
  exists r, (shots wk), img, res, mn, mx, mnl, (Z.of_nat i, Z.of_nat j).
  simpl in Hle, Hshot, Hcalls, Heng.
  split; [reflexivity|]. split; [assumption|]. split; [assumption|].
  split; [lia|]. split; [congruence|]. split; [assumption|].
  split; [exists (engine_calls wk); congruence|].
  repeat split; assumption.
Qed.

(** X10.  With a region, the guard is true exactly when the pattern's width
    and height both fit; it logs one warning per dimension that does not
    fit, width first, and has no other effect. *)
Theorem guard_decides_fit_in_region (pattern : Pattern) (r : Rectangle) (w : World) :
  exists b w',
    is_pattern_size_correct pattern (Some r) w = Some (Ok b, w') /\
    (b = true <-> fst (get_size pattern) <= rect_width r /\
                  snd (get_size pattern) <= rect_height r) /\
    shots w' = shots w /\ ticks w' = ticks w /\ engine_calls w' = engine_calls w /\
    records w' =
      records w
      ++ (if fst (get_size pattern) >? rect_width r
          then [warning_width (fst (get_size pattern)) (rect_width r)] else [])
      ++ (if snd (get_size pattern) >? rect_height r
          then [warning_height (snd (get_size pattern)) (rect_height r)] else []).
Proof.
  destruct (is_pattern_size_correct_with_region pattern r w)
    as (w1 & H & Hs & Ht & He & Hr).
  eexists. exists w1. split; [exact H|].
  rewrite andb_true_iff, !Z.leb_le. repeat split; tauto || assumption.
Qed.

(** X11.  A pattern wider or higher than the region stops both wrappers at
    the guard: [image_find] and [image_vanish] return [None] without a
    capture, a clock reading or an engine call, with a warning logged. *)
Theorem oversized_pattern_stops_at_the_guard (fuel : nat) (env : Env)
    (pattern : Pattern) (timeout : option Z) (r : Rectangle) (w : World) :
  fst (get_size pattern) > rect_width r \/ snd (get_size pattern) > rect_height r ->
  exists w',
    image_find fuel env pattern timeout (Some r) w = Some (Ok None, w') /\
    image_vanish fuel env pattern timeout (Some r) w = Some (Ok None, w') /\
    shots w' = shots w /\ ticks w' = ticks w /\ engine_calls w' = engine_calls w /\
    records w' <> records w.
Proof.
  intros Hbig.
  destruct (is_pattern_size_correct_with_region pattern r w)
    as (w1 & H & Hs & Ht & He & Hr).
  replace ((fst (get_size pattern) <=? rect_width r)
           && (snd (get_size pattern) <=? rect_height r)) with false in H
    by (symmetry; apply andb_false_iff; rewrite !Z.leb_gt; lia).
  exists w1. unfold image_find, image_vanish, bind. rewrite H. simpl.
  repeat split; try assumption.
  rewrite Hr. intros Heq.
  apply (f_equal length) in Heq. rewrite !length_app in Heq.
  destruct Hbig as [Hb|Hb].
  - replace (fst (get_size pattern) >? rect_width r) with true in Heq
      by (symmetry; apply Z.gtb_lt; lia).
    simpl in Heq. lia.
  - replace (snd (get_size pattern) >? rect_height r) with true in Heq
      by (symmetry; apply Z.gtb_lt; lia).
    destruct (_ >? _) in Heq; simpl in Heq; lia.
Qed.

(** ** What the extraction loop reports *)

Lemma score_at_cell (res : Surface) (j i : nat) (v : Q) :
  cell res j i = Some v ->
  score_at res (mkLocation (Z.of_nat i) (Z.of_nat j)) = Some v.
Proof.
  intros H. unfold score_at. simpl. rewrite (getitem2_cell res j i v H). exact H.
Qed.

(** The loop from any stage on: while the current surface is the engine's
    surface [res0] with some cells suppressed and all its scores are at most
    [bound], what the loop appends are locations whose score in [res0] is
    between the threshold and the similarity and at most [bound], in
    descending order of that score. *)
Lemma extract_matches_scores (pattern : Pattern) (threshold : Q) (res0 : Surface) :
  (SUPPRESSED <= threshold)%Q ->
  forall (fuel : nat) (res : Surface) (acc out : list Location) (bound : Q),
    (forall j i, cell res j i = cell res0 j i \/ cell res j i = Some SUPPRESSED) ->
    (forall j i v, cell res j i = Some v -> (v <= bound)%Q) ->
    extract_matches fuel pattern threshold res acc = Some (Ok out) ->
    exists found,
      out = acc ++ found /\
      Forall (fun loc => exists v, score_at res0 loc = Some v /\
                         (threshold < v)%Q /\ (v < similarity pattern)%Q /\
                         (v <= bound)%Q) found /\
      StronglySorted (scores_descend res0) found.
Proof.
  intros Hthr. induction fuel as [|fuel IH]; intros res acc out bound Hres Hbound H;
    [discriminate|].
  destruct (cv2_minMaxLoc res) as [[[[mn mx] mnl] mxl]|e] eqn:Hmm.
  2: { simpl in H. rewrite Hmm in H. discriminate. }
  rewrite (extract_matches_step _ _ _ _ _ _ _ _ _ Hmm) in H.
  destruct (Qltb mx (similarity pattern) && Qltb threshold mx) eqn:Hacc.
  2: { inversion H; subst. exists []. rewrite app_nil_r.
       repeat split; constructor. }
  apply andb_true_iff in Hacc as [Hbelow Habove]. apply Qltb_lt in Hbelow, Habove.
  destruct (cv2_minMaxLoc_max _ _ _ _ _ Hmm) as (j & i & -> & Hmax & Hupper).
  assert (cell res0 j i = Some mx) as Hmax0.
  { destruct (Hres j i) as [E|E]; [rewrite <- E; exact Hmax|].
    rewrite Hmax in E. inversion E; subst mx. exfalso.
    exact (Qlt_not_le _ _ Habove Hthr). }
  apply (IH _ _ _ mx) in H.
  - destruct H as (found & -> & Hfound & Hsorted).
    exists (mkLocation (Z.of_nat i) (Z.of_nat j) :: found).
    split; [rewrite <- app_assoc; reflexivity|]. split.
    + constructor.
      * exists mx. repeat split; try assumption.
        -- apply score_at_cell, Hmax0.
        -- eapply Hbound, Hmax.
      * eapply Forall_impl; [exact Hfound|].
        intros loc (v & Hv & H1 & H2 & H3). exists v. repeat split; try assumption.
        eapply Qle_trans; [exact H3|]. eapply Hbound, Hmax.
    + constructor; [assumption|].
      eapply Forall_impl; [exact Hfound|].
      intros loc (v & Hv & _ & _ & H3) v1 v2 Hv1 Hv2. simpl in Hv1.
      rewrite (score_at_cell _ _ _ _ Hmax0) in Hv1. inversion Hv1; subst v1.
      rewrite Hv in Hv2. inversion Hv2; subst v2. exact H3.
  - intros j' i'.
    destruct (cell_suppress_cases res (Z.of_nat i, Z.of_nat j) (get_size pattern) j' i')
      as [E|E]; [rewrite E; apply Hres|right; exact E].
  - intros j' i' v Hv.
    destruct (cell_suppress_cases res (Z.of_nat i, Z.of_nat j) (get_size pattern) j' i')
      as [E|E]; rewrite Hv in E.
    + eapply Hupper. symmetry. exact E.
    + inversion E; subst v. apply Qlt_le_weak. eapply Qle_lt_trans; eassumption.
Qed.

(** X12.  With an overlap threshold not below the suppression score, every
    location the loop reports holds, on the engine's surface, a score
    strictly between the threshold and the pattern's similarity, and the
    locations come in discovery order with descending scores. *)
Theorem reported_scores_descend (pattern : Pattern) (threshold : Q) (res : Surface)
    (fuel : nat) (out : list Location) :
  (SUPPRESSED <= threshold)%Q ->
  extract_matches fuel pattern threshold res [] = Some (Ok out) ->
  Forall (fun loc => exists v, score_at res loc = Some v /\
                     (threshold < v)%Q /\ (v < similarity pattern)%Q) out /\
  StronglySorted (scores_descend res) out.
Proof.
  intros Hthr H.
  destruct (cv2_minMaxLoc res) as [[[[mn mx] mnl] mxl]|e] eqn:Hmm.
  2: { destruct fuel; [discriminate|]. simpl in H. rewrite Hmm in H. discriminate. }
  destruct (cv2_minMaxLoc_max _ _ _ _ _ Hmm) as (_ & _ & _ & _ & Hupper).
  destruct (extract_matches_scores pattern threshold res Hthr fuel res [] out mx
              ltac:(intros; left; reflexivity) Hupper H)
    as (found & -> & Hfound & Hsorted).
  split; [|exact Hsorted].
  eapply Forall_impl; [exact Hfound|].
  intros loc (v & Hv & H1 & H2 & _). eauto.
Qed.

(** The loop from any stage on, for a pattern of at least 2x2: while the
    locations already recorded are distinct and their cells are suppressed,
    the result has no repetition and grows by at most one location per
    cell above the threshold. *)
Lemma extract_matches_distinct (pattern : Pattern) (threshold : Q) :
  2 <= fst (get_size pattern) -> 2 <= snd (get_size pattern) ->
  (SUPPRESSED <= threshold)%Q ->
  forall (fuel : nat) (res : Surface) (acc out : list Location),
    NoDup acc ->
    (forall loc, loc ∈ acc ->
       exists j i, loc = mkLocation (Z.of_nat i) (Z.of_nat j) /\
                   cell res j i = Some SUPPRESSED) ->
    extract_matches fuel pattern threshold res acc = Some (Ok out) ->
    NoDup out /\ (length out <= length acc + live threshold res)%nat.
Proof.
  intros Hw Hh Hthr.
  assert (Qltb threshold SUPPRESSED = false) as Hs by (apply Qltb_ge; exact Hthr).
  induction fuel as [|fuel IH]; intros res acc out Hnd Hacc H; [discriminate|].
  destruct (cv2_minMaxLoc res) as [[[[mn mx] mnl] mxl]|e] eqn:Hmm.
  2: { simpl in H. rewrite Hmm in H. discriminate. }
  rewrite (extract_matches_step _ _ _ _ _ _ _ _ _ Hmm) in H.
  destruct (Qltb mx (similarity pattern) && Qltb threshold mx) eqn:Hok.
  2: { inversion H; subst. split; [assumption|lia]. }
  apply andb_true_iff in Hok as [_ Habove].
  destruct (cv2_minMaxLoc_max _ _ _ _ _ Hmm) as (j & i & -> & Hmax & _).
  destruct (get_size pattern) as [width height] eqn:Hsize. simpl in Hw, Hh.
  destruct (suppress_erases_max res width height j i mx Hw Hh Hmax)
    as (Hin & Hres & Herased).
  pose proof (live_suppress_cells_lt threshold res _ _ j i mx Hs Hin Hres Hmax Habove)
    as Hlt.
  rewrite <- suppress_window in Hlt.
  apply IH in H.
  - destruct H as [Hout Hlen]. split; [assumption|].
    rewrite length_app in Hlen. cbn [length] in Hlen. lia.
  - apply NoDup_app. split; [assumption|]. split; [|apply NoDup_singleton].
    intros loc Hloc Hnew. apply list_elem_of_singleton in Hnew. subst loc.
    destruct (Hacc _ Hloc) as (j' & i' & Heq & Hsup).
    injection Heq as Hi Hj. apply Nat2Z.inj in Hi, Hj. subst i' j'.
    rewrite Hmax in Hsup. inversion Hsup; subst mx.
    apply Qltb_lt in Habove. exact (Qlt_not_le _ _ Habove Hthr).
  - intros loc Hloc. apply elem_of_app in Hloc as [Hloc|Hloc].
    + destruct (Hacc _ Hloc) as (j' & i' & Heq & Hsup).
      exists j', i'. split; [assumption|].
      rewrite suppress_window. apply cell_suppress_cells_keeps, Hsup.
    + apply list_elem_of_singleton in Hloc. subst loc.
      exists j, i. split; [reflexivity|exact Herased].
Qed.

(** X13.  For a pattern of at least 2x2 and an overlap threshold not below
    the suppression score, no location is reported twice, and there are at
    most as many locations as the surface has cells above the threshold. *)
Theorem reported_locations_are_distinct (pattern : Pattern) (threshold : Q)
    (res : Surface) (fuel : nat) (out : list Location) :
  2 <= fst (get_size pattern) -> 2 <= snd (get_size pattern) ->
  (SUPPRESSED <= threshold)%Q ->
  extract_matches fuel pattern threshold res [] = Some (Ok out) ->
  NoDup out /\ (length out <= live threshold res)%nat.
Proof.
  intros Hw Hh Hthr H.
  apply (extract_matches_distinct pattern threshold Hw Hh Hthr fuel res [] out);
    [constructor|intros loc Hloc; inversion Hloc|exact H].
Qed.

(** X14.  A suppression step never changes the shape of the surface, and
    every cell it leaves holds either its former score or the suppression
    score. *)
Theorem suppress_only_lowers_cells (res : Surface) (top_left size : Z * Z) :
  shape (suppress res top_left size) = shape res /\
  forall j i,
    cell (suppress res top_left size) j i = cell res j i \/
    (is_Some (cell res j i) /\
     cell (suppress res top_left size) j i = Some SUPPRESSED).
Proof.
  split; [apply shape_suppress|].
  intros j i. destruct (cell_suppress_cases res top_left size j i) as [E|E];
    [left; exact E|right].
  split; [|exact E].
  apply cell_shape. rewrite <- (shape_suppress res top_left size).
  apply cell_shape. rewrite E. eauto.
Qed.

(** X15.  When the window has no negative subscript (the maximum is at
    least half a pattern away from the top and left edges), the step
    overwrites exactly the cells of the surface inside the window and
    clips at the bottom and right edges. *)
Theorem suppress_clips_at_far_edges (res : Surface) (sx sy width height : Z)
    (j i : nat) (v : Q) :
  0 <= int_minus_half sx width -> 0 <= int_minus_half sy height ->
  cell res j i = Some v ->
  cell (suppress res (sx, sy) (width, height)) j i =
    Some (if (int_minus_half sx width <=? Z.of_nat i)
             && (Z.of_nat i <? int_plus_half sx width)
             && (int_minus_half sy height <=? Z.of_nat j)
             && (Z.of_nat j <? int_plus_half sy height)
          then SUPPRESSED else v).
Proof. apply suppress_without_negative_subscripts. Qed.

(** X16.  For a pattern of at least 2x2 and an overlap threshold above the
    suppression score, [match_template_multiple] returns or raises once it
    has enough fuel, whatever the capture and the engine give. *)
Theorem match_template_multiple_terminates (env : Env) (pattern : Pattern)
    (region : option Rectangle) (threshold : Q) (w : World) :
  2 <= fst (get_size pattern) -> 2 <= snd (get_size pattern) ->
  (SUPPRESSED < threshold)%Q ->
  exists fuel r w',
    match_template_multiple fuel env pattern region threshold w = Some (r, w').
Proof.
  intros Hw Hh Hthr.
  assert (Qltb threshold SUPPRESSED = false) as Hs
    by (apply Qltb_ge, Qlt_le_weak, Hthr).
  unfold match_template_multiple, bind, try_except, logger_debug,
    new_ScreenshotImage, call_matchTemplate, lift. simpl.
  destruct (screenshot env (shots w) region) as [img|e].
  2: { exists 0%nat. destruct (exn_eqb e ScreenshotError); simpl; eauto. }
  match goal with |- context [cv2_matchTemplate ?en ?h ?n] =>
    destruct (cv2_matchTemplate en h n) as [res|e]
  end.
  2: { exists 0%nat. destruct (exn_eqb e ScreenshotError); simpl; eauto. }
  exists (S (live threshold res)).
  destruct (cv2_minMaxLoc res) as [[[[mn mx] mnl] mxl]|e] eqn:Hmm.
  - destruct (cv2_minMaxLoc_max _ _ _ _ _ Hmm) as (j & i & _ & Hmax & _).
    destruct (extract_matches_enough_fuel pattern threshold (live threshold res)
                Hw Hh Hs res [] j i mx ltac:(lia) Hmax) as (out & Hout).
    rewrite Hout. eauto.
  - cbn [extract_matches]. rewrite Hmm.
    destruct (exn_eqb e ScreenshotError); simpl; eauto.
Qed.

(** * Properties of the pytest hooks of [app.py] *)

Lemma list_remove_first (x : App.Handler) (l1 l2 : list App.Handler) :
  x ∉ l1 -> App.list_remove x (l1 ++ x :: l2) = Some (l1 ++ l2).
Proof.
  induction l1 as [|y l1 IH]; intros Hnot; simpl.
  - rewrite bool_decide_eq_true_2; reflexivity.
  - apply not_elem_of_cons in Hnot as [Hne Hnot].
    rewrite bool_decide_eq_false_2 by congruence.
    rewrite (IH Hnot). reflexivity.
Qed.

Lemma elem_of_first_split (x : App.Handler) (l : list App.Handler) :
  x ∈ l -> exists l1 l2, l = l1 ++ x :: l2 /\ x ∉ l1.
Proof.
  induction l as [|y l IH]; intros Hin; [inversion Hin|].
  destruct (decide (y = x)) as [->|Hne].
  - exists [], l. split; [reflexivity|]. intros H; inversion H.
  - apply elem_of_cons in Hin as [->|Hin]; [contradiction|].
    destruct (IH Hin) as (l1 & l2 & -> & Hnot).
    exists (y :: l1), l2. split; [reflexivity|].
    apply not_elem_of_cons. split; [congruence|assumption].
Qed.

(** What [_disable_catchlog] does to the handlers. *)
Lemma disable_catchlog_effect (item : App.Item) (st : App.Loggers) :
  exists hs,
    App._disable_catchlog item st = (App.Done, App.mkLoggers hs (App.info_messages st)) /\
    (App.catch_log_handler item ∉ App.handlers st -> hs = App.handlers st) /\
    (forall l1 l2,
       App.handlers st = l1 ++ App.catch_log_handler item :: l2 ->
       App.catch_log_handler item ∉ l1 -> hs = l1 ++ l2).
Proof.
  unfold App._disable_catchlog. destruct st as [hs0 msgs]. simpl.
  destruct (bool_decide (App.catch_log_handler item ∈ hs0)) eqn:E.
  - apply bool_decide_eq_true_1 in E.
    destruct (elem_of_first_split _ _ E) as (l1 & l2 & -> & Hnot).
    rewrite (list_remove_first _ l1 l2 Hnot).
    exists (l1 ++ l2). split; [reflexivity|]. split; [contradiction|].
    intros k1 k2 Heq Hk.
    assert (App.list_remove (App.catch_log_handler item) (l1 ++ App.catch_log_handler item :: l2)
            = Some (k1 ++ k2)) as H by (rewrite Heq; apply list_remove_first, Hk).
    rewrite (list_remove_first _ l1 l2 Hnot) in H. congruence.
  - apply bool_decide_eq_false_1 in E.
    exists hs0. split; [reflexivity|]. split; [reflexivity|].
    intros l1 l2 -> _. exfalso. apply E. apply elem_of_app. right. left.
Qed.

Lemma disable_catchlog_count (item : App.Item) (st : App.Loggers) (g : App.Handler) :
  exists hs,
    App._disable_catchlog item st = (App.Done, App.mkLoggers hs (App.info_messages st)) /\
    count_occ Nat.eq_dec hs g =
      if decide (g = App.catch_log_handler item)
      then pred (count_occ Nat.eq_dec (App.handlers st) g)
      else count_occ Nat.eq_dec (App.handlers st) g.
Proof.
  destruct (disable_catchlog_effect item st) as (hs & Hrun & Habsent & Hsplit).
  exists hs. split; [exact Hrun|].
  destruct (decide (App.catch_log_handler item ∈ App.handlers st)) as [Hin|Hnot].
  - destruct (elem_of_first_split _ _ Hin) as (l1 & l2 & Heq & Hl1).
    rewrite (Hsplit l1 l2 Heq Hl1), Heq, !count_occ_app. simpl.
    destruct (decide (g = App.catch_log_handler item)) as [->|Hne].
    + destruct (Nat.eq_dec _ _); [lia|contradiction].
    + destruct (Nat.eq_dec _ _); [congruence|reflexivity].
  - rewrite (Habsent Hnot).
    destruct (decide (g = App.catch_log_handler item)) as [->|Hne]; [|reflexivity].
    replace (count_occ Nat.eq_dec (App.handlers st) (App.catch_log_handler item)) with 0%nat;
      [reflexivity|].
    symmetry. apply count_occ_not_In. rewrite <- list_elem_of_In. exact Hnot.
Qed.

(** X17.  [_disable_catchlog] never raises and never logs; it removes the
    first occurrence of the item's handler from the root logger's handlers
    and nothing else, and leaves the list alone when the handler is not in
    it. *)
Theorem disable_catchlog_removes_first_occurrence (item : App.Item) (st : App.Loggers) :
  exists hs,
    App._disable_catchlog item st = (App.Done, App.mkLoggers hs (App.info_messages st)) /\
    (App.catch_log_handler item ∉ App.handlers st -> hs = App.handlers st) /\
    (forall l1 l2,
       App.handlers st = l1 ++ App.catch_log_handler item :: l2 ->
       App.catch_log_handler item ∉ l1 -> hs = l1 ++ l2).
Proof. apply disable_catchlog_effect. Qed.

(** X18.  [pytest_runtest_call] on an item without markers raises
    [IndexError] before it logs or touches the handlers; on an item with
    markers it logs one message, "Executing: - [F]: D" with F the node id up
    to its first colon and D the first marker's description (or "None"),
    and then acts as [_disable_catchlog]. *)
Theorem runtest_call_needs_a_marker (item : App.Item) (st : App.Loggers) :
  (App.own_markers item = [] ->
     App.pytest_runtest_call item st = (App.Raised App.IndexError, st)) /\
  (forall marker rest,
     App.own_markers item = marker :: rest ->
     exists hs,
       App.pytest_runtest_call item st =
         (App.Done,
          App.mkLoggers hs
            (App.info_messages st
             ++ [("Executing: - [" ++ App.before_colon (App._nodeid item) ++ "]: "
                  ++ App.py_str (App.kwargs marker !! "description"%string))%string])) /\
       fst (App._disable_catchlog item st) = App.Done /\
       App.handlers (snd (App._disable_catchlog item st)) = hs).
Proof.
  split.
  - intros H. unfold App.pytest_runtest_call. rewrite H. reflexivity.
  - intros marker rest H. unfold App.pytest_runtest_call. rewrite H.
    set (st1 := App.mkLoggers (App.handlers st) _).
    destruct (disable_catchlog_effect item st1) as (hs & Hrun & _).
    exists hs. split; [exact Hrun|].
    unfold App._disable_catchlog in *. simpl in *.
    destruct (bool_decide _); [|inversion Hrun; split; reflexivity].
    destruct (App.list_remove _ _); inversion Hrun. split; reflexivity.
Qed.

(** X19.  The three hooks of one test, run in the order setup, call,
    teardown on an item with a marker, all succeed, log exactly one
    message, and detach up to three occurrences of the item's handler: a
    handler attached at most three times is gone afterwards, every other
    handler is attached as often as before. *)
Theorem hooks_of_one_test (item : App.Item) (st : App.Loggers) (g : App.Handler) :
  App.own_markers item <> [] ->
  exists st1 st2 hs msg,
    App.pytest_runtest_setup item st = (App.Done, st1) /\
    App.pytest_runtest_call item st1 = (App.Done, st2) /\
    App.pytest_runtest_teardown item st2
      = (App.Done, App.mkLoggers hs (App.info_messages st ++ [msg])) /\
    count_occ Nat.eq_dec hs g =
      if decide (g = App.catch_log_handler item)
      then (count_occ Nat.eq_dec (App.handlers st) g - 3)%nat
      else count_occ Nat.eq_dec (App.handlers st) g.
Proof.
  intros Hmarkers. unfold App.pytest_runtest_setup, App.pytest_runtest_teardown,
    App.pytest_runtest_call.
  destruct (App.own_markers item) as [|marker rest]; [contradiction|].
  destruct (disable_catchlog_count item st g) as (hs1 & Hrun1 & Hc1).
  set (msg := ("Executing: - [" ++ App.before_colon (App._nodeid item) ++ "]: "
               ++ App.py_str (App.kwargs marker !! "description"%string))%string).
  destruct (disable_catchlog_count item
              (App.mkLoggers hs1 (App.info_messages st ++ [msg])) g)
    as (hs2 & Hrun2 & Hc2).
  destruct (disable_catchlog_count item
              (App.mkLoggers hs2 (App.info_messages st ++ [msg])) g)
    as (hs3 & Hrun3 & Hc3).
  exists (App.mkLoggers hs1 (App.info_messages st)),
         (App.mkLoggers hs2 (App.info_messages st ++ [msg])), hs3, msg.
  split; [exact Hrun1|]. split; [exact Hrun2|]. split; [exact Hrun3|].
  simpl in Hc2, Hc3. rewrite Hc3, Hc2, Hc1.
  destruct (decide (g = App.catch_log_handler item)); [lia|reflexivity].
Qed.

(** * The further properties on the sample data *)

(** The icon found in the steady world: one capture, one engine call, the
    point (101, 51). *)
Lemma match_template_on_success_witness :
  match_template steady_env (icon (9 # 10)) (Some corner_region) fresh_world =
    Some (Ok (mkLocation 101 51),
          mkWorld 1 0 [(screen_gray, icon_gray)] [debug_searching "icon.png"]).
Proof.
  exact (match_template_on_success steady_env (icon (9 # 10)) (Some corner_region)
           fresh_world screen_image icon_surface (1 # 10) (1 # 1) (0, 0) (1, 1)
           eq_refl eq_refl eq_refl).
Defined.

(** An engine error reaches the caller of both searches. *)
Lemma other_exceptions_are_not_masked_witness :
  exists w1 w2,
    match_template broken_engine_env (icon (9 # 10)) None fresh_world
      = Some (Raise cv2_error, w1) /\
    match_template_multiple 3 broken_engine_env (icon (9 # 10)) None (1 # 2) fresh_world
      = Some (Raise cv2_error, w2).
Proof.
  destruct (other_exceptions_are_not_masked broken_engine_env (icon (9 # 10)) None
              (1 # 2) 3 fresh_world cv2_error ltac:(discriminate)
              (or_intror (ex_intro _ screen_image (conj eq_refl (fun _ _ => eq_refl)))))
    as (w1 & w2 & H1 & H2 & _).
  exists w1, w2. split; assumption.
Defined.

(** In the world where the icon appears at the third capture, a timeout of
    10 runs out after two captures. *)
Lemma image_find_times_out_witness :
  exists w',
    image_find 2 appearing_env (icon (9 # 10)) (Some 10) (Some corner_region) fresh_world
      = Some (Ok None, w') /\
    shots w' = 2%nat.
Proof.
  apply (image_find_times_out appearing_env (icon (9 # 10)) corner_region (Some 10)
           fresh_world 2).
  - simpl. lia.
  - simpl. lia.
  - intros k Hk. simpl. lia.
  - simpl. lia.
  - intros k [s t e r] Hk Hs. simpl in Hs. subst s.
    destruct k as [|[|k]]; [| |lia]; eexists; eexists; split; reflexivity.
  - lia.
Defined.

(** In the same world the default timeout of 30 lasts until the icon is
    there: the third capture finds it. *)
Lemma image_find_returns_first_match_witness :
  exists w',
    image_find 3 appearing_env (icon (9 # 10)) None (Some corner_region) fresh_world
      = Some (Ok (Some (mkLocation 101 51)), w') /\
    shots w' = 3%nat.
Proof.
  apply (image_find_returns_first_match appearing_env (icon (9 # 10)) corner_region None
           fresh_world 2 (mkLocation 101 51)).
  - simpl. lia.
  - simpl. lia.
  - intros k Hk. simpl. lia.
  - intros k [s t e r] Hk Hs. simpl in Hs. subst s.
    destruct k as [|[|k]]; [| |lia]; eexists; eexists; split; reflexivity.
  - intros [s t e r] Hs. simpl in Hs. subst s. eexists. reflexivity.
  - simpl. lia.
  - lia.
Defined.

(** In the world where the icon is gone at the third capture,
    [image_vanish] reports it then. *)
Lemma image_vanish_returns_True_witness :
  exists w',
    image_vanish 3 vanishing_env (icon (9 # 10)) (Some 30) (Some corner_region) fresh_world
      = Some (Ok (Some true), w') /\
    shots w' = 3%nat.
Proof.
  apply (image_vanish_returns_True vanishing_env (icon (9 # 10)) corner_region 30
           fresh_world 2 (mkLocation (-1) (-1))).
  - simpl. lia.
  - simpl. lia.
  - intros k Hk. simpl. lia.
  - intros k [s t e r] Hk Hs. simpl in Hs. subst s.
    destruct k as [|[|k]]; [| |lia]; eexists; eexists; (split; [reflexivity|]);
      simpl; lia.
  - intros [s t e r] Hs. simpl in Hs. subst s. eexists. reflexivity.
  - left. reflexivity.
  - lia.
Defined.

(** In the world without captures [image_vanish] reports the icon gone. *)
Lemma image_vanish_True_on_capture_failure_witness :
  exists w',
    image_vanish 1 blind_env (icon (9 # 10)) (Some 10) (Some corner_region) fresh_world
      = Some (Ok (Some true), w') /\
    engine_calls w' = [] /\ shots w' = 1%nat.
Proof.
  apply (image_vanish_True_on_capture_failure blind_env (icon (9 # 10)) corner_region 10
           fresh_world 0).
  - simpl. lia.
  - simpl. lia.
  - lia.
  - reflexivity.
Defined.

(** With timeout 0 the icon on the screen is neither found nor reported
    as present or gone. *)
Lemma no_search_without_positive_timeout_witness :
  (exists w',
     image_find 0 steady_env (icon (9 # 10)) (Some 0) (Some corner_region) fresh_world
       = Some (Ok None, w') /\
     shots w' = 0%nat /\ engine_calls w' = []) /\
  (exists w',
     image_vanish 0 steady_env (icon (9 # 10)) (Some 0) (Some corner_region) fresh_world
       = Some (Ok None, w') /\
     shots w' = 0%nat /\ engine_calls w' = []).
Proof.
  apply (no_search_without_positive_timeout steady_env (icon (9 # 10)) corner_region
           (Some 0) 0 fresh_world 0); simpl; lia.
Defined.

(** With the sample clock a timeout of 10 is over at the second reading
    after the call. *)
Lemma polling_ends_at_the_deadline_witness :
  (exists r w',
     image_find 2 steady_env (icon (9 # 10)) (Some 10) (Some corner_region) fresh_world
       = Some (r, w')) /\
  (exists r w',
     image_vanish 2 steady_env (icon (9 # 10)) (Some 10) (Some corner_region) fresh_world
       = Some (r, w')).
Proof.
  apply (polling_ends_at_the_deadline steady_env (icon (9 # 10)) (Some corner_region)
           (Some 10) 10 fresh_world 2); simpl; lia.
Defined.

(** The point [image_find] returns in the steady world comes from the
    first capture and the engine's surface for it. *)
Lemma image_find_returns_a_match_witness :
  exists (res : Surface) (max_val : Q),
    cv2_matchTemplate steady_env screen_gray icon_gray = Ok res /\
    (similarity (icon (9 # 10)) <= max_val)%Q /\
    exists min_val min_loc max_loc,
      cv2_minMaxLoc res = Ok (min_val, max_val, min_loc, max_loc) /\
      mkLocation 101 51
        = mkLocation (fst max_loc + rect_x corner_region)
                     (snd max_loc + rect_y corner_region).
Proof.
  destruct (image_find 5 steady_env (icon (9 # 10)) (Some 10) (Some corner_region)
              fresh_world) as [[out w']|] eqn:E; vm_compute in E; [|discriminate E].
  inversion E; subst out w'; clear E.
  destruct (image_find_returns_a_match 5 steady_env (icon (9 # 10)) (Some 10)
              (Some corner_region) fresh_world (mkLocation 101 51) _ eq_refl)
    as (_ & r & k & img & res & mn & mx & mnl & mxl & Hr & _ & _ & _ & _ & Hshot & _
        & Heng & Hmm & Hsim & Hpos).
  inversion Hr; subst r. inversion Hshot; subst img.
  exists res, mx. split; [exact Heng|]. split; [exact Hsim|].
  exists mn, mnl, mxl. split; assumption.
Defined.

(** The icon does not fit a 1x1 region. *)
Lemma oversized_pattern_stops_at_the_guard_witness :
  exists w',
    image_find 5 steady_env (icon (9 # 10)) None (Some tiny_region) fresh_world
      = Some (Ok None, w') /\
    image_vanish 5 steady_env (icon (9 # 10)) None (Some tiny_region) fresh_world
      = Some (Ok None, w') /\
    shots w' = 0%nat.
Proof.
  destruct (oversized_pattern_stops_at_the_guard 5 steady_env (icon (9 # 10)) None
              tiny_region fresh_world ltac:(left; simpl; lia))
    as (w' & Hfind & Hvanish & Hshots & _).
  exists w'. repeat split; assumption.
Defined.

(** The four locations extracted from [corner_surface]. *)
Lemma reported_scores_descend_witness :
  Forall (fun loc => exists v, score_at corner_surface loc = Some v /\
                     (1 # 2 < v)%Q /\ (v < 8 # 10)%Q)
         [mkLocation 0 0; mkLocation 1 0; mkLocation 0 1; mkLocation 1 1] /\
  StronglySorted (scores_descend corner_surface)
         [mkLocation 0 0; mkLocation 1 0; mkLocation 0 1; mkLocation 1 1].
Proof.
  apply (reported_scores_descend (icon (8 # 10)) (1 # 2) corner_surface 9).
  - discriminate.
  - reflexivity.
Defined.

Lemma reported_locations_are_distinct_witness :
  NoDup [mkLocation 0 0; mkLocation 1 0; mkLocation 0 1; mkLocation 1 1] /\
  (4 <= live (1 # 2) corner_surface)%nat.
Proof.
  apply (reported_locations_are_distinct (icon (8 # 10)) (1 # 2) corner_surface 9
           [mkLocation 0 0; mkLocation 1 0; mkLocation 0 1; mkLocation 1 1]).
  - simpl. lia.
  - simpl. lia.
  - discriminate.
  - reflexivity.
Defined.

(** Around the centre of [corner_surface] a 2x2 window has no negative
    subscript: the bottom-right cell is outside it and keeps its score, the
    centre is inside. *)
Lemma suppress_clips_at_far_edges_witness :
  cell (suppress corner_surface (1, 1) (2, 2)) 2 2 = Some (6 # 10)%Q /\
  cell (suppress corner_surface (1, 1) (2, 2)) 1 1 = Some SUPPRESSED.
Proof.
  split.
  - apply (suppress_clips_at_far_edges corner_surface 1 1 2 2 2 2 (6 # 10));
      [vm_compute; discriminate|vm_compute; discriminate|reflexivity].
  - apply (suppress_clips_at_far_edges corner_surface 1 1 2 2 1 1 (6 # 10));
      [vm_compute; discriminate|vm_compute; discriminate|reflexivity].
Defined.

Lemma match_template_multiple_terminates_witness :
  exists fuel r w',
    match_template_multiple fuel faint_env (icon (8 # 10)) (Some wide_region) (1 # 2)
      fresh_world = Some (r, w').
Proof.
  apply match_template_multiple_terminates.
  - simpl. lia.
  - simpl. lia.
  - reflexivity.
Defined.

(** The hooks of a described test item against handlers [7; 3; 7]. *)
Lemma hooks_of_one_test_witness :
  exists st1 st2 hs msg,
    App.pytest_runtest_setup described_item (App.mkLoggers [7; 3; 7]%nat []) = (App.Done, st1) /\
    App.pytest_runtest_call described_item st1 = (App.Done, st2) /\
    App.pytest_runtest_teardown described_item st2 = (App.Done, App.mkLoggers hs [msg]) /\
    count_occ Nat.eq_dec hs 7%nat = 0%nat.
Proof.
  destruct (hooks_of_one_test described_item (App.mkLoggers [7; 3; 7]%nat []) 7%nat
              ltac:(discriminate))
    as (st1 & st2 & hs & msg & H1 & H2 & H3 & Hc).
  exists st1, st2, hs, msg. repeat split; assumption.
Defined.
